(** * Article summarisation runner: retry executor and dataset processor

    A shallow embedding of [src/utils.py] (prompt rendering and the
    retry/backoff wrapper) and of [process_csv] in [src/run_summary.py],
    together with the properties of the specification that concern them.

    Conventions of the embedding.
    - A Python [str] is a Rocq [string]; each character stands for one code
      point below 256.
    - A Python [int] is a [Z].  The [base] of [retry_backoff] is an integer,
      as in the call made by [process_csv]; the argument of [time.sleep] is
      a [Q].
    - [time.sleep] makes the checks of the interpreter (the delay must fit a
      signed 64-bit count of nanoseconds and must not be negative) and then
      hands the delay to the operating system.  A delay of up to a day is
      performed; what the system does with a longer one is a parameter of
      the model.  No signal arrives during a sleep.
    - Effects are threaded explicitly: a computation is a function from the
      world to an outcome (a value or a raised exception) and a new world.
    - A CSV file is the list of records that [csv.reader] yields for it and
      that [csv.writer] was given for it; quoting and line ends are not
      modelled.
    - The body of [call_openai_chat] only probes the [openai] package and
      the remote service; what it returns or raises for a prompt is a
      parameter of the model.  Reading and writing files does not fail,
      except that a file may be absent. *)

From Stdlib Require Import ZArith QArith Lia Ascii.
From stdpp Require Import base strings list gmap pretty stringmap.

Set Default Proof Using "Type".

(** ** Exceptions and outcomes *)

(** The Python exceptions that occur.  [Exception cls msg] is an instance of
    a subclass [cls] of [Exception] whose [str()] is [msg]; [SystemExit] and
    [KeyboardInterrupt] derive from [BaseException] only. *)
Inductive exn : Type :=
| SystemExit (code : Z)
| KeyboardInterrupt
| Exception (cls msg : string).

(** [isinstance(e, Exception)], the test made by [except Exception]. *)
Definition is_Exception (e : exn) : bool :=
  match e with
  | Exception _ _ => true
  | _ => false
  end.

(** [str(e)]. *)
Definition exn_str (e : exn) : string :=
  match e with
  | SystemExit code => pretty code
  | KeyboardInterrupt => ""
  | Exception _ msg => msg
  end.

Inductive result (A : Type) : Type :=
| Ok (a : A)
| Raise (e : exn).
Arguments Ok {A} a.
Arguments Raise {A} e.

(** ** The world and the monad of effects *)

(** The world seen by the code: [ext] is everything outside the interpreter
    that an operation may change, [slept] the arguments of the successful
    calls of [time.sleep], oldest first. *)
Record world (S : Type) : Type := World {
  ext : S;
  slept : list Q
}.
Arguments World {S} ext slept.
Arguments ext {S} w.
Arguments slept {S} w.

Definition M (S A : Type) : Type := world S → result A * world S.

Definition ret {S A} (a : A) : M S A := λ w, (Ok a, w).

Definition raise {S A} (e : exn) : M S A := λ w, (Raise e, w).

Definition bind {S A B} (m : M S A) (k : A → M S B) : M S B :=
  λ w, match m w with
       | (Ok a, w') => k a w'
       | (Raise e, w') => (Raise e, w')
       end.

#[global] Instance M_ret {S} : MRet (M S) := λ A, ret.
#[global] Instance M_bind {S} : MBind (M S) := λ A B k m, bind m k.

(** Run an operation on the external state only. *)
Definition lift_ext {S A} (f : S → result A * S) : M S A :=
  λ w, let '(r, s') := f (ext w) in (r, World s' (slept w)).

(** Reify the outcome of [m], as a [try] block does for its handlers. *)
Definition attempt {S A} (m : M S A) : M S (result A) :=
  λ w, let '(r, w') := m w in (Ok r, w').

(** ** [time.sleep] *)

(** What the operating system does with a delay of more than a day that
    the interpreter has accepted: it performs it ([None]) or refuses it
    with an exception, as Linux does with [OSError] for a delay that would
    end beyond the range of its clock. *)
Class Platform : Type := os_sleep : Q → option exn.

(** The interpreter converts the delay to a count of nanoseconds held in a
    signed 64-bit integer, rounding away from zero: a delay that does not
    fit is refused.  For an [int] this is a delay below [-9223372036] or
    above [9223372036] seconds. *)
Definition sleep_overflows (seconds : Q) : bool :=
  negb (Qle_bool (inject_Z (- 2 ^ 63)) (seconds * inject_Z (10 ^ 9)))
  || negb (Qle_bool (seconds * inject_Z (10 ^ 9)) (inject_Z (2 ^ 63 - 1))).

(** The longest delay that is performed on every platform: a day. *)
Definition short_delay (seconds : Q) : bool := Qle_bool seconds (inject_Z 86400).

(** The exception [time.sleep(seconds)] raises, if any: [OverflowError] is
    checked first, then [ValueError] for a negative delay, and then the
    operating system is asked. *)
Definition sleep_refusal {platform : Platform} (seconds : Q) : option exn :=
  if sleep_overflows seconds then
    Some (Exception "OverflowError" "timestamp too large to convert to C _PyTime_t")
  else if negb (Qle_bool 0 seconds) then
    Some (Exception "ValueError" "sleep length must be non-negative")
  else if short_delay seconds then None
  else os_sleep seconds.

(** [time.sleep(seconds)]. *)
Definition time_sleep {platform : Platform} {S} (seconds : Q) : M S unit :=
  λ w, match sleep_refusal seconds with
       | None => (Ok tt, World (ext w) (slept w ++ [seconds]))
       | Some e => (Raise e, w)
       end.

(** [raise last_exc]: raising [None] is a [TypeError]. *)
Definition raise_value {S A} (last_exc : option exn) : M S A :=
  match last_exc with
  | Some e => raise e
  | None => raise (Exception "TypeError" "exceptions must derive from BaseException")
  end.

(** ** [utils.retry_backoff] *)

Section Retry.
Context {platform : Platform} {St V : Type}.

(** A zero-argument operation: it acts on the external state and either
    returns a value or raises. *)
Definition operation : Type := St → result V * St.

(** The [for i in range(max_retries)] loop, with [n] iterations left. *)
Fixpoint retry_loop (func : operation) (base : Z) (exceptions : exn → bool)
    (n : nat) (i : Z) (last_exc : option exn) : M St V :=
  match n with
  | O => raise_value last_exc
  | S n' =>
      r ← attempt (lift_ext func);
      match r with
      | Ok v => ret v
      | Raise e =>
          if exceptions e then
            let wait := (base * 2 ^ i)%Z in
            time_sleep (inject_Z wait);;
            retry_loop func base exceptions n' (i + 1)%Z (Some e)
          else raise e
      end
  end.

Definition retry_backoff (func : operation) (max_retries : Z) (base : Z)
    (exceptions : exn → bool) : M St V :=
  retry_loop func base exceptions (Z.to_nat max_retries) 0%Z None.

(** [fails func exceptions k s es s']: started in [s], the first [k]
    invocations of [func] raise the exceptions [es], each one caught by
    [exceptions], and leave the external state [s']. *)
Inductive fails (func : operation) (exceptions : exn → bool) :
    nat → St → list exn → St → Prop :=
| fails_O s : fails func exceptions 0 s [] s
| fails_S k s e s1 es s' :
    func s = (Raise e, s1) →
    exceptions e = true →
    fails func exceptions k s1 es s' →
    fails func exceptions (S k) s (e :: es) s'.

(** [func] instrumented with the number of its invocations. *)
Definition counting (func : operation) : St * nat → result V * (St * nat) :=
  λ sn, let '(r, s') := func sn.1 in (r, (s', S sn.2)).

(** The delays [base * 2^i] of the [k] retries that start at index [i0]. *)
Definition backoff_delays (base : Z) (i0 : Z) (k : nat) : list Z :=
  (λ i, base * 2 ^ i)%Z <$> seqZ i0 (Z.of_nat k).
End Retry.

(** The value of [last_exc] after the failures [es]. *)
Definition last_exc_after (es : list exn) (last_exc : option exn) : option exn :=
  match last es with
  | Some e => Some e
  | None => last_exc
  end.

(** An operation whose state is the number of invocations made so far: the
    first [k] raise a [RuntimeError], the later ones return [v]. *)
Definition flaky {V} (k : nat) (v : V) : nat → result V * nat :=
  λ n, (if n <? k then Raise (Exception "RuntimeError" "transient") else Ok v, S n).

Definition sumZ (l : list Z) : Z := foldr Z.add 0%Z l.

Definition sumQ (l : list Q) : Q := foldr Qplus 0%Q l.

(** ** Strings: [str.strip], [str.replace], slicing *)

(** [str.isspace] on the code points below 256. *)
Definition isspace (c : ascii) : bool :=
  let n := N_of_ascii c in
  ((9 <=? n) && (n <=? 13) || (28 <=? n) && (n <=? 32)
   || (n =? 133) || (n =? 160))%N.

Fixpoint lstrip (s : string) : string :=
  match s with
  | EmptyString => EmptyString
  | String c s' => if isspace c then lstrip s' else s
  end.

Definition rstrip (s : string) : string := String.rev (lstrip (String.rev s)).

Definition strip (s : string) : string := rstrip (lstrip s).

(** Truth value of a [str]: the empty string is false. *)
Definition str_bool (s : string) : bool := negb (String.eqb s "").

(** One pass over [s]; [skip] characters of a match are still to be dropped. *)
Fixpoint replace_go (old new : string) (skip : nat) (s : string) : string :=
  match s with
  | EmptyString => EmptyString
  | String c s' =>
      match skip with
      | S k => replace_go old new k s'
      | O =>
          if String.prefix old s
          then new +:+ replace_go old new (String.length old - 1) s'
          else String c (replace_go old new 0 s')
      end
  end.

Fixpoint intersperse (new s : string) : string :=
  match s with
  | EmptyString => EmptyString
  | String c s' => String c (new +:+ intersperse new s')
  end.

(** [s.replace(old, new)]: all non-overlapping occurrences, left to right. *)
Definition str_replace (old new s : string) : string :=
  if String.eqb old "" then new +:+ intersperse new s
  else replace_go old new 0 s.

(** [s[:n]]. *)
Definition str_take (n : nat) (s : string) : string := String.substring 0 n s.

(** A value interpolated in an f-string: [None] prints as its name. *)
Definition fmt (v : option string) : string := default "None" v.

(** ** [utils.load_prompt] and [utils.render_prompt] *)

(** [template.replace("{{ARTICLE}}", article)] then one replacement per extra
    (the extras are the items of the dict, their values already [str]);
    [str.replace] rejects an argument that is [None]. *)
Definition render_prompt (template : string) (article : option string)
    (extras : list (string * string)) : result string :=
  match article with
  | None => Raise (Exception "TypeError" "replace() argument 2 must be str, not None")
  | Some a =>
      Ok (foldl (λ text kv, str_replace ("{{" +:+ kv.1 +:+ "}}") kv.2 text)
            (str_replace "{{ARTICLE}}" a template) extras)
  end.

(** ** Rows: the dicts of [csv.DictReader] *)

(** A row maps field names to values; a value is a [str] or [None].  [rest]
    is the entry under the key [None] ([restkey]), the surplus fields of a
    record longer than the header. *)
Record row : Type := Row {
  cells : gmap string (option string);
  rest : option (list string)
}.

(** [row.get(k)]. *)
Definition row_get (r : row) (k : string) : option string :=
  match cells r !! k with
  | Some v => v
  | None => None
  end.

(** [row.get(k, d)]: the default applies only when the key is absent. *)
Definition row_get_default (r : row) (k d : string) : option string :=
  match cells r !! k with
  | Some v => v
  | None => Some d
  end.

(** [row[k] = v]. *)
Definition row_set (r : row) (k v : string) : row :=
  Row (<[k := Some v]> (cells r)) (rest r).

(** [dict(zip(ks, vs))]: a later duplicate key overwrites an earlier one. *)
Definition dict_zip (ks vs : list string) : gmap string (option string) :=
  foldl (λ d kv, <[kv.1 := Some kv.2]> d) ∅ (zip ks vs).

(** [DictReader.__next__] on one non-empty record. *)
Definition read_row (fieldnames record : list string) : row :=
  let d := dict_zip fieldnames record in
  let lf := length fieldnames in
  let lr := length record in
  if lf <? lr then Row d (Some (drop lf record))
  else if lr <? lf then Row (foldl (λ d k, <[k := None]> d) d (drop lr fieldnames)) None
  else Row d None.

(** The rows a [DictReader] yields: empty records are skipped. *)
Definition read_rows (fieldnames : list string) (records : list (list string)) : list row :=
  read_row fieldnames <$> filter (λ r, r ≠ []) records.

(** The value a [csv.writer] writes for [rowdict.get(key, "")]. *)
Definition cell (r : row) (k : string) : string :=
  match cells r !! k with
  | Some (Some s) => s
  | _ => ""
  end.

(** The keys of the dict that are not field names. *)
Definition wrong_fields (fieldnames : list string) (r : row) : list (option string) :=
  (Some <$> filter (λ k, k ∉ fieldnames) (elements (dom (cells r))))
  ++ match rest r with Some _ => [None] | None => [] end.

Definition repr_key (k : option string) : string :=
  match k with
  | Some s => "'" +:+ s +:+ "'"
  | None => "None"
  end.

Fixpoint join (sep : string) (l : list string) : string :=
  match l with
  | [] => ""
  | [x] => x
  | x :: l' => x +:+ sep +:+ join sep l'
  end.

(** [DictWriter._dict_to_list] with [extrasaction="raise"]. *)
Definition dict_to_list (fieldnames : list string) (r : row) : result (list string) :=
  match wrong_fields fieldnames r with
  | [] => Ok (cell r <$> fieldnames)
  | wrong =>
      Raise (Exception "ValueError"
               ("dict contains fields not in fieldnames: " +:+ join ", " (repr_key <$> wrong)))
  end.

(** A CSV file is the list of its records, the header first. *)
Abbreviation table := (list (list string)).

(** The records a [DictWriter] writes for the rows. *)
Definition records_of (fieldnames : list string) (rows : list row) : table :=
  (λ r, cell r <$> fieldnames) <$> rows.

(** The row can be written: all its keys are field names. *)
Definition fits (fieldnames : list string) (r : row) : Prop :=
  wrong_fields fieldnames r = [].

(** ** The state outside the interpreter *)

Record call_record : Type := CallRecord {
  call_prompt : string;
  call_model : string;
  call_result : result string
}.

(** One line of [errors.log]: the JSON object with keys [id] and [error]. *)
Record error_record : Type := ErrorRecord {
  err_id : option string;
  err_error : string
}.

Inductive fs_event : Type :=
| Created (dir path : string)
| Wrote (path : string) (record : list string)
| Replaced (src dst : string).

(** The effect of one file-system operation on the CSV files. *)
Definition fs_apply (fs : gmap string table) (ev : fs_event) : gmap string table :=
  match ev with
  | Created _ p => <[p := []]> fs
  | Wrote p record => <[p := default [] (fs !! p) ++ [record]]> fs
  | Replaced src dst =>
      match fs !! src with
      | Some t => <[dst := t]> (delete src fs)
      | None => fs
      end
  end.

(** The operations of a successful [persist]. *)
Definition persist_events (dir tmp csv_path : string) (headers : list string)
    (recs : table) : list fs_event :=
  [Created dir tmp; Wrote tmp headers] ++ (Wrote tmp <$> recs) ++ [Replaced tmp csv_path].

(** The operation creates or extends the file [p], and does nothing else. *)
Definition writes_to (p : string) (ev : fs_event) : Prop :=
  match ev with
  | Created _ q => q = p
  | Wrote q _ => q = p
  | Replaced _ _ => False
  end.

(** [api] is the state of the remote service, [calls] the invocations of the
    call adapter, [stdout] the printed lines, [errors_log] the lines of
    [errors.log], [texts] the text files (prompt templates), [tables] the CSV
    files and [fs_log] the operations performed on them, oldest first. *)
Record pstate (A : Type) : Type := PState {
  api : A;
  calls : list call_record;
  stdout : list string;
  errors_log : list error_record;
  texts : gmap string string;
  tables : gmap string table;
  fs_log : list fs_event
}.
Arguments PState {A} api calls stdout errors_log texts tables fs_log.
Arguments api {A} p.
Arguments calls {A} p.
Arguments stdout {A} p.
Arguments errors_log {A} p.
Arguments texts {A} p.
Arguments tables {A} p.
Arguments fs_log {A} p.

Definition lift_result {S A} (r : result A) : M S A := λ w, (r, w).

(** The files are the same in both states. *)
Definition same_files {A} (s s' : pstate A) : Prop :=
  texts s' = texts s ∧ tables s' = tables s ∧ fs_log s' = fs_log s.

(** The second state has the calls of the first, and possibly more. *)
Definition more_calls {A} (s s' : pstate A) : Prop :=
  ∃ new, calls s' = calls s ++ new.

Definition same_calls {A} (s s' : pstate A) : Prop := calls s' = calls s.

(** The call returned a text that is not blank. *)
Definition answered (c : call_record) : Prop :=
  ∃ text, call_result c = Ok text ∧ strip text ≠ "".

(** ** [run_summary.process_csv] *)

Definition dry_run_placeholder : string := "[dry-run] summary would be written here".

Definition schema_message : string :=
  "CSV must include headers and contain 'article' and 'summary' columns.".

(** The pacing delay [time.sleep(0.3)]. *)
Definition pacing_delay : Q := 3 # 10.

(** [row.get("summary") and row.get("summary").strip()] as a truth value. *)
Definition has_summary (r : row) : bool :=
  match row_get r "summary" with
  | Some s => str_bool s && str_bool (strip s)
  | None => false
  end.

(** The line printed for a row that needs work. *)
Definition processing_line (r : row) (i : nat) : string :=
  "Processing id=" +:+ fmt (row_get r "id") +:+ " (index=" +:+ pretty i +:+ ")".

(** The line printed when the retries of a row are exhausted. *)
Definition failure_line (r : row) (e : exn) : string :=
  "Error calling OpenAI for id=" +:+ fmt (row_get r "id") +:+ ": " +:+ exn_str e.

(** What one iteration of the row loop may do to its row and to the
    [updated] flag: skip a summarized row, leave a row whose call failed, or
    store a summary and raise the flag. *)
Inductive row_step (r : row) (updated : bool) : row → bool → Prop :=
| row_skipped : has_summary r = true → row_step r updated r updated
| row_failed : has_summary r = false → row_step r updated r updated
| row_stored s : has_summary r = false →
    row_step r updated (row_set r "summary" s) true.

Section Processor.
Context {platform : Platform} {A : Type}.

(** What the remote service answers to a prompt for a model, as the call
    adapter [call_openai_chat] returns or raises it. *)
Variable chat_completion : string → string → A → result string * A.

(** [os.path.abspath] and [os.path.dirname]. *)
Variables abspath dirname : string → string.

(** The path [tempfile.mkstemp(suffix, prefix, dir)] creates, given the
    files that exist. *)
Variable mkstemp_name : gmap string table → string → string → string → string.

(** The state after one more printed line. *)
Definition add_line (line : string) (s : pstate A) : pstate A :=
  PState (api s) (calls s) (stdout s ++ [line]) (errors_log s) (texts s)
    (tables s) (fs_log s).

Definition print (line : string) : M (pstate A) unit :=
  lift_ext (λ s, (Ok tt, add_line line s)).

(** The state after one more line of [errors.log]. *)
Definition add_error (line : error_record) (s : pstate A) : pstate A :=
  PState (api s) (calls s) (stdout s) (errors_log s ++ [line]) (texts s)
    (tables s) (fs_log s).

Definition log_error (line : error_record) : M (pstate A) unit :=
  lift_ext (λ s, (Ok tt, add_error line s)).

(** The state after one operation on the CSV files, which is recorded. *)
Definition fs_step (s : pstate A) (ev : fs_event) : pstate A :=
  PState (api s) (calls s) (stdout s) (errors_log s) (texts s)
    (fs_apply (tables s) ev) (fs_log s ++ [ev]).

Definition fs_do (ev : fs_event) : M (pstate A) unit :=
  lift_ext (λ s, (Ok tt, fs_step s ev)).

(** The state after a sequence of operations on the CSV files. *)
Definition fs_run (events : list fs_event) (s : pstate A) : pstate A :=
  foldl fs_step s events.

(** The call adapter: one invocation, recorded in [calls]. *)
Definition call_openai_chat (prompt model : string) : pstate A → result string * pstate A :=
  λ s, let '(r, a) := chat_completion prompt model (api s) in
       (r, PState a (calls s ++ [CallRecord prompt model r]) (stdout s)
             (errors_log s) (texts s) (tables s) (fs_log s)).

Definition no_such_file (path : string) : exn :=
  Exception "FileNotFoundError" ("[Errno 2] No such file or directory: '" +:+ path +:+ "'").

Definition load_prompt (path : string) : M (pstate A) string :=
  λ w, match texts (ext w) !! path with
       | Some text => (Ok text, w)
       | None => (Raise (no_such_file path), w)
       end.

(** The records [csv.reader] yields for the file at [path]. *)
Definition read_csv (path : string) : M (pstate A) table :=
  λ w, match tables (ext w) !! path with
       | Some t => (Ok t, w)
       | None => (Raise (no_such_file path), w)
       end.

Definition mkstemp (suffix prefix dir : string) : M (pstate A) string :=
  λ w, let path := mkstemp_name (tables (ext w)) suffix prefix dir in
       (fs_do (Created dir path);; mret path) w.

(** [writer.writerow(rowdict)] of a [DictWriter] on the file at [path]. *)
Definition writerow (path : string) (fieldnames : list string) (r : row) : M (pstate A) unit :=
  record ← lift_result (dict_to_list fieldnames r);
  fs_do (Wrote path record).

Definition writeheader (path : string) (fieldnames : list string) : M (pstate A) unit :=
  writerow path fieldnames (Row (dict_zip fieldnames fieldnames) None).

Fixpoint writerows (path : string) (fieldnames : list string) (rows : list row) : M (pstate A) unit :=
  match rows with
  | [] => mret tt
  | r :: rows' => writerow path fieldnames r;; writerows path fieldnames rows'
  end.

(** The directory the temporary file is created in. *)
Definition tmp_dir_of (csv_path : string) : string :=
  let d := dirname (abspath csv_path) in
  if String.eqb d "" then "." else d.

(** The [if updated:] branch: write to a temporary file, then replace. *)
Definition persist (csv_path : string) (headers : list string) (rows : list row) : M (pstate A) unit :=
  tmp_path ← mkstemp ".csv" "csvtmp" (tmp_dir_of csv_path);
  writeheader tmp_path headers;;
  writerows tmp_path headers rows;;
  fs_do (Replaced tmp_path csv_path);;
  print ("Wrote updates to " +:+ csv_path).

(** The body of the row loop: the row and the [updated] flag after it. *)
Definition process_row (prompt_template model : string) (dry_run : bool)
    (i : nat) (r : row) (updated : bool) : M (pstate A) (row * bool) :=
  if has_summary r then mret (r, updated)
  else
    let article := row_get_default r "article" "" in
    prompt ← lift_result (render_prompt prompt_template article []);
    print (processing_line r i);;
    if dry_run then
      (print "--- prompt preview ---";;
       print (str_take 1000 prompt);;
       print "--- end preview ---";;
       mret (row_set r "summary" dry_run_placeholder, true))
    else
      (res ← attempt (retry_backoff (call_openai_chat prompt model) 4 1 is_Exception);
       match res with
       | Raise e =>
           if is_Exception e then
             (print (failure_line r e);;
              log_error (ErrorRecord (row_get r "id") (exn_str e));;
              mret (r, updated))
           else raise e
       | Ok summary =>
           time_sleep pacing_delay;;
           mret (row_set r "summary" summary, true)
       end).

(** [for i, row in enumerate(rows)], from index [i] on. *)
Fixpoint process_rows (prompt_template model : string) (dry_run : bool)
    (i : nat) (rows : list row) (updated : bool) : M (pstate A) (list row * bool) :=
  match rows with
  | [] => mret (([] : list row), updated)
  | r :: rows' =>
      '(r', updated') ← process_row prompt_template model dry_run i r updated;
      '(rows'', updated'') ← process_rows prompt_template model dry_run (S i) rows' updated';
      mret (r' :: rows'', updated'')
  end.

(** [reader.fieldnames]: the first record, [None] for an empty file. *)
Definition fieldnames_of (t : table) : option (list string) := head t.

(** The header test of [process_csv]. *)
Definition headers_ok (headers : option (list string)) : bool :=
  match headers with
  | None => false
  | Some h => bool_decide ("article" ∈ h) && bool_decide ("summary" ∈ h)
  end.

Definition process_csv (csv_path prompt_path model : string) (batch_size : Z)
    (dry_run : bool) : M (pstate A) unit :=
  prompt_template ← load_prompt prompt_path;
  t ← read_csv csv_path;
  let headers := fieldnames_of t in
  if headers_ok headers then
    (let fieldnames := default [] headers in
     let rows := read_rows fieldnames (tail t) in
     '(rows', updated) ← process_rows prompt_template model dry_run 0 rows false;
     if updated : bool then persist csv_path fieldnames rows'
     else print "No updates needed.")
  else
    (print schema_message;;
     raise (SystemExit 1)).
End Processor.

(** ** Stand-ins for the environment, used to run the model *)

(** A remote service that answers from a script, one entry per call, and is
    unreachable once the script is exhausted. *)
Definition scripted : string → string → list (result string) → result string * list (result string) :=
  λ _ _ script,
    match script with
    | [] => (Raise (Exception "RuntimeError" "service unreachable"), [])
    | answer :: script' => (answer, script')
    end.

(** Directory of a path: everything before the last slash. *)
Fixpoint dirname_go (s : string) : string * bool :=
  match s with
  | EmptyString => (EmptyString, false)
  | String c s' =>
      let '(d, found) := dirname_go s' in
      if found then (String c d, true)
      else if Ascii.eqb c "/" then (EmptyString, true)
      else (EmptyString, false)
  end.

Definition simple_dirname (s : string) : string := (dirname_go s).1.

(** A temporary name that no existing file has. *)
Definition fresh_tmp : gmap string table → string → string → string → string :=
  λ fs suffix prefix dir, fresh_string (dir +:+ "/" +:+ prefix +:+ suffix) fs.

(** A platform that refuses delays of more than 9200000000 seconds, as a
    Linux host does that has been up for some 23372036 seconds. *)
#[global] Instance sample_platform : Platform :=
  λ seconds, if Qle_bool seconds (inject_Z 9200000000) then None
             else Some (Exception "OSError" "[Errno 22] Invalid argument").

(** A world with one prompt template and one dataset. *)
Definition sample_world (t : table) (script : list (result string)) :
    world (pstate (list (result string))) :=
  World (PState script [] [] []
           {["prompts/summarize.txt" := "Summarize: {{ARTICLE}}"]}
           {["/data/sample.csv" := t]} [])
        [].

Definition sample_header : list string := ["id"; "article"; "summary"].

(** ** Notions used to state further properties *)



(** Some suffix of [s] starts with [old]: [old in s]. *)
Fixpoint occurs (old s : string) : bool :=
  String.prefix old s
  || match s with
     | EmptyString => false
     | String _ s' => occurs old s'
     end.

(** The character [c] occurs in [s]. *)
Fixpoint has_char (c : ascii) (s : string) : bool :=
  match s with
  | EmptyString => false
  | String d s' => Ascii.eqb c d || has_char c s'
  end.


(** The row needs work: the loop does not skip it. *)
Definition needs_work (r : row) : Prop := has_summary r = false.

(** The row a dry run leaves in place of [r]. *)
Definition dry_run_result (r : row) : row :=
  if has_summary r then r else row_set r "summary" dry_run_placeholder.

(** The lines a dry run prints for the row at index [i]. *)
Definition dry_run_lines (tpl : string) (i : nat) (r : row) : list string :=
  if has_summary r then []
  else [processing_line r i; "--- prompt preview ---";
        str_take 1000 (str_replace "{{ARTICLE}}" (cell r "article") tpl);
        "--- end preview ---"].

(** The state after printing several lines. *)
Definition add_lines {A} (lines : list string) (s : pstate A) : pstate A :=
  PState (api s) (calls s) (stdout s ++ lines) (errors_log s) (texts s)
    (tables s) (fs_log s).

(** The lines a dry run prints for the rows, the first one at index [i]. *)
Fixpoint dry_run_output (tpl : string) (i : nat) (rows : list row) : list string :=
  match rows with
  | [] => []
  | r :: rows' => dry_run_lines tpl i r ++ dry_run_output tpl (S i) rows'
  end.

(** Some row needs work. *)
Definition any_needs_work (rows : list row) : bool :=
  existsb (λ r, negb (has_summary r)) rows.

(** The number of rows that need work. *)
Definition count_needs_work (rows : list row) : nat :=
  length (filter needs_work rows).

(** The error log is the same in both states. *)
Definition same_errors {A} (s s' : pstate A) : Prop := errors_log s' = errors_log s.

(** The calls and the error records an iteration may add for the row [r]:
    at most [n] calls and at most one record, which carries the id of [r]. *)
Definition within_budget {A} (n : nat) (r : row) (s s' : pstate A) : Prop :=
  length (calls s') ≤ length (calls s) + (if has_summary r then 0 else n) ∧
  ∃ new, errors_log s' = errors_log s ++ new ∧
         length new ≤ (if has_summary r then 0 else 1) ∧
         Forall (λ line, err_id line = row_get r "id") new.

(** [time.sleep] performs the delay of [d] seconds. *)
Definition performed {platform : Platform} (d : Z) : Prop := sleep_refusal (inject_Z d) = None.

(** The call returned a text. *)
Definition returned (c : call_record) : Prop := ∃ v, call_result c = Ok v.

(** [row.get("article", "")] is a [str]: the row has no [article] key, or
    a value under it that is not [None]. *)
Definition has_article (r : row) : Prop := is_Some (row_get_default r "article" "").

(** The record [csv.DictWriter] writes for a row read from a record
    shorter than the header: the missing fields are written empty. *)
Definition padded (fieldnames record : list string) : list string :=
  record ++ replicate (length fieldnames - length record) "".

(** Unfold the operations of the monad. *)
Ltac munfold :=
  unfold mbind, M_bind, bind, mret, M_ret, ret, raise, lift_ext, lift_result, attempt.

(** * Properties *)

(** ** Arithmetic of the backoff delays *)

Lemma backoff_delays_O (base i0 : Z) : backoff_delays base i0 0 = [].
Proof. reflexivity. Qed.

Lemma backoff_delays_S (base i0 : Z) (k : nat) :
  backoff_delays base i0 (S k) = (base * 2 ^ i0)%Z :: backoff_delays base (i0 + 1) k.
Proof.
  unfold backoff_delays. rewrite seqZ_cons by lia. rewrite fmap_cons.
  replace (Z.succ i0) with (i0 + 1)%Z by lia.
  replace (Z.pred (Z.of_nat (S k))) with (Z.of_nat k) by lia. done.
Qed.

Lemma backoff_delays_snoc (base i0 : Z) (k : nat) :
  backoff_delays base i0 (S k) =
  backoff_delays base i0 k ++ [(base * 2 ^ (i0 + Z.of_nat k))%Z].
Proof.
  revert i0. induction k as [|k IH]; intros i0.
  - rewrite backoff_delays_S, !backoff_delays_O. simpl.
    by rewrite Z.add_0_r.
  - rewrite backoff_delays_S, IH, (backoff_delays_S base i0 k). simpl.
    replace (i0 + 1 + Z.of_nat k)%Z with (i0 + Z.of_nat (S k))%Z by lia. done.
Qed.

Lemma sumZ_app (l1 l2 : list Z) : sumZ (l1 ++ l2) = (sumZ l1 + sumZ l2)%Z.
Proof. induction l1 as [|x l1 IH]; simpl; [done|]. rewrite IH. lia. Qed.

(** The geometric sum: [base*2^0 + ... + base*2^(k-1) = base * (2^k - 1)]. *)
Lemma sumZ_backoff_delays (base : Z) (k : nat) :
  sumZ (backoff_delays base 0 k) = (base * (2 ^ Z.of_nat k - 1))%Z.
Proof.
  induction k as [|k IH].
  - simpl. lia.
  - rewrite backoff_delays_snoc, sumZ_app, IH. cbn [sumZ foldr].
    rewrite Nat2Z.inj_succ, Z.pow_succ_r, Z.add_0_l by lia. ring.
Qed.

Lemma sumQ_inject_Z (l : list Z) : sumQ (inject_Z <$> l) == inject_Z (sumZ l).
Proof.
  induction l as [|x l IH]; simpl; [reflexivity|].
  rewrite IH, inject_Z_plus. reflexivity.
Qed.

(** ** Sleeping *)

Lemma sleep_overflows_int (d : Z) :
  sleep_overflows (inject_Z d) = negb ((-9223372036 <=? d)%Z && (d <=? 9223372036)%Z).
Proof.
  unfold sleep_overflows. rewrite <- inject_Z_mult.
  assert (∀ a b : Z, Qle_bool (inject_Z a) (inject_Z b) = (a <=? b)%Z) as Hle.
  { intros a b. apply eq_true_iff_eq. rewrite Qle_bool_iff, <- Zle_Qle. symmetry.
    apply Z.leb_le. }
  rewrite !Hle, negb_andb. f_equal; f_equal.
  - apply eq_true_iff_eq. rewrite !Z.leb_le. lia.
  - apply eq_true_iff_eq. rewrite !Z.leb_le. lia.
Qed.

Section SleepFacts.
Context {platform : Platform} {S : Type}.
Implicit Types (w : world S).

(** A sleep either appends its delay or raises and changes nothing. *)
Lemma time_sleep_cases (seconds : Q) w :
  time_sleep seconds w = (Ok tt, World (ext w) (slept w ++ [seconds]))
  ∨ ∃ e, time_sleep seconds w = (Raise e, w).
Proof. unfold time_sleep. destruct (sleep_refusal seconds) as [e|]; eauto. Qed.

Lemma time_sleep_performed (d : Z) w :
  performed d →
  time_sleep (inject_Z d) w = (Ok tt, World (ext w) (slept w ++ [inject_Z d])).
Proof. unfold performed, time_sleep. by intros ->. Qed.

(** A delay that is performed is not negative and fits the range of the
    interpreter. *)
Lemma performed_range (d : Z) : performed d → (0 ≤ d ≤ 9223372036)%Z.
Proof.
  unfold performed, sleep_refusal. rewrite sleep_overflows_int.
  destruct (_ && _) eqn:Hrange; [|done]. cbn [negb].
  apply andb_true_iff in Hrange as [_ Hmax%Z.leb_le].
  destruct (Qle_bool 0 (inject_Z d)) eqn:Hpos; [|done].
  apply Qle_bool_iff in Hpos. change 0%Q with (inject_Z 0) in Hpos.
  rewrite <- Zle_Qle in Hpos. lia.
Qed.

(** Delays of up to a day are performed on every platform. *)
Lemma performed_short (d : Z) : (0 ≤ d ≤ 86400)%Z → performed d.
Proof.
  intros [Hpos Hday]. unfold performed, sleep_refusal. rewrite sleep_overflows_int.
  replace (_ && _) with true by (symmetry; apply andb_true_iff; split; apply Z.leb_le; lia).
  cbn [negb]. replace (Qle_bool 0 (inject_Z d)) with true.
  2:{ symmetry. apply Qle_bool_iff. change 0%Q with (inject_Z 0). by rewrite <- Zle_Qle. }
  cbn [negb]. unfold short_delay. replace (Qle_bool _ _) with true; [done|].
  symmetry. apply Qle_bool_iff. by rewrite <- Zle_Qle.
Qed.



(** The backoff delays of the row loop, [1], [2], [4] and [8] seconds, are
    performed. *)
Lemma row_delays_performed (k : nat) : k ≤ 4 → Forall performed (backoff_delays 1 0 k).
Proof.
  intros Hk. apply Forall_forall. intros d Hd. apply performed_short.
  unfold backoff_delays in Hd. apply list_elem_of_fmap_1 in Hd as (i & -> & Hi).
  apply elem_of_seqZ in Hi.
  assert (2 ^ i ≤ 2 ^ 3)%Z by (apply Z.pow_le_mono_r; lia).
  assert (0 < 2 ^ i)%Z by (apply Z.pow_pos_nonneg; lia). lia.
Qed.

(** The pacing delay of the row loop is performed. *)
Lemma time_sleep_pacing w :
  time_sleep (3 # 10) w = (Ok tt, World (ext w) (slept w ++ [3 # 10])).
Proof. reflexivity. Qed.
End SleepFacts.

(** ** The retry loop *)

Section RetryFacts.
Context {platform : Platform} {St V : Type}.
Implicit Types (func : operation (St:=St) (V:=V)) (exceptions : exn → bool).

Lemma last_exc_after_cons e es last_exc :
  last_exc_after es (Some e) = last_exc_after (e :: es) last_exc.
Proof.
  unfold last_exc_after. destruct es as [|e' es]; [done|].
  rewrite last_cons_cons.
  destruct (last (e' :: es)) eqn:Hlast; [done|]. by apply last_None in Hlast.
Qed.

(** One iteration of the retry loop. *)
Lemma retry_loop_S func base exceptions n i last_exc (w0 : world St) :
  retry_loop func base exceptions (S n) i last_exc w0
  = match func (ext w0) with
    | (Ok v, s1) => (Ok v, World s1 (slept w0))
    | (Raise e, s1) =>
        if exceptions e then
          match time_sleep (inject_Z (base * 2 ^ i)) (World s1 (slept w0)) with
          | (Ok _, w2) => retry_loop func base exceptions n (i + 1) (Some e) w2
          | (Raise e2, w2) => (Raise e2, w2)
          end
        else (Raise e, World s1 (slept w0))
    end.
Proof.
  cbn [retry_loop]. munfold. cbn [ext slept].
  destruct (func (ext w0)) as [[v|e] s1]; [done|].
  destruct (exceptions e); [|done].
  by destruct (time_sleep _ _) as [[[]|e2] w2].
Qed.

(** [k] caught failures, each followed by a delay that is performed,
    consume [k] iterations and sleep [k] times. *)
Lemma retry_loop_fails func base exceptions k n i last_exc s es s' l :
  fails func exceptions k s es s' →
  Forall performed (backoff_delays base i k) →
  retry_loop func base exceptions (k + n) i last_exc (World s l) =
  retry_loop func base exceptions n (i + Z.of_nat k) (last_exc_after es last_exc)
    (World s' (l ++ (inject_Z <$> backoff_delays base i k))).
Proof.
  intros Hf. revert i last_exc l.
  induction Hf as [s|k s e s1 es s' Hfunc Hexc _ IH]; intros i last_exc l Hd.
  - simpl. rewrite Z.add_0_r, app_nil_r. done.
  - change (S k + n) with (S (k + n)).
    rewrite backoff_delays_S in Hd. apply Forall_cons in Hd as [Hd1 Hd].
    cbn [retry_loop]. unfold mbind, M_bind, bind, attempt, lift_ext. simpl.
    rewrite Hfunc, Hexc. rewrite time_sleep_performed by done.
    rewrite IH, backoff_delays_S, <- last_exc_after_cons by done. simpl.
    rewrite <- app_assoc. simpl.
    replace (i + 1 + Z.of_nat k)%Z with (i + Z.of_nat (S k))%Z by lia. done.
Qed.

Lemma retry_loop_success func base exceptions n i last_exc s v s' l :
  func s = (Ok v, s') →
  retry_loop func base exceptions (S n) i last_exc (World s l) = (Ok v, World s' l).
Proof.
  intros Hfunc. cbn [retry_loop].
  unfold mbind, M_bind, bind, attempt, lift_ext. simpl. by rewrite Hfunc.
Qed.


End RetryFacts.

(** ** The retry executor *)

Section RetryClaims.
Context {platform : Platform} {St V : Type}.
Implicit Types (func : operation (St:=St) (V:=V)) (exceptions : exn → bool).


(** C9.  With [max_retries <= 0] the loop body never runs: the operation
    is not invoked (its invocation count stays the same), nothing is
    slept, and [raise last_exc] with [last_exc = None] raises a
    [TypeError], which no invocation of the operation produced. *)
Theorem retry_backoff_nonpositive_retries func exceptions (max_retries base : Z)
    (w : world St) (count : nat) :
  (max_retries ≤ 0)%Z →
  retry_backoff func max_retries base exceptions w
    = (Raise (Exception "TypeError" "exceptions must derive from BaseException"), w) ∧
  retry_backoff (counting func) max_retries base exceptions
      (World (ext w, count) (slept w))
    = (Raise (Exception "TypeError" "exceptions must derive from BaseException"),
       World (ext w, count) (slept w)).
Proof.
  intros Hmax. unfold retry_backoff.
  replace (Z.to_nat max_retries) with 0%nat by lia. done.
Qed.

End RetryClaims.



(** Witness of C9: zero retries. *)
Lemma retry_backoff_nonpositive_retries_witness :
  retry_backoff (flaky 0 "ok") 0 1 is_Exception (World 7%nat [])
    = (Raise (Exception "TypeError" "exceptions must derive from BaseException"),
       World 7%nat []) ∧
  retry_backoff (counting (flaky 0 "ok")) 0 1 is_Exception (World (7%nat, 0%nat) [])
    = (Raise (Exception "TypeError" "exceptions must derive from BaseException"),
       World (7%nat, 0%nat) []).
Proof.
  apply (retry_backoff_nonpositive_retries (flaky 0 "ok") is_Exception 0 1
           (World 7%nat []) 0%nat).
  lia.
Defined.



(** ** The row loop *)

Lemma str_bool_true (s : string) : str_bool s = true ↔ s ≠ "".
Proof.
  unfold str_bool. rewrite negb_true_iff. split.
  - intros H ->. discriminate.
  - intros H. by apply String.eqb_neq.
Qed.

(** The test of the loop holds exactly when [summary] is present and is not
    blank once trimmed. *)
Lemma has_summary_spec (r : row) :
  has_summary r = true ↔ ∃ s, row_get r "summary" = Some s ∧ strip s ≠ "".
Proof.
  unfold has_summary. destruct (row_get r "summary") as [s|]; split.
  - intros [_ H]%andb_true_iff. exists s. by rewrite <- str_bool_true.
  - intros (s' & [= <-] & Hs). apply andb_true_iff. rewrite !str_bool_true.
    split; [|done]. by intros ->.
  - done.
  - by intros (s' & ? & _).
Qed.

Lemma row_get_set (r : row) (k v : string) : row_get (row_set r k v) k = Some v.
Proof. unfold row_get, row_set. simpl. by rewrite lookup_insert_eq. Qed.

Lemma row_get_set_ne (r : row) (k k' v : string) :
  k ≠ k' → row_get (row_set r k v) k' = row_get r k'.
Proof. intros. unfold row_get, row_set. simpl. by rewrite lookup_insert_ne. Qed.

Lemma cell_set_ne (r : row) (k k' v : string) :
  k ≠ k' → cell (row_set r k v) k' = cell r k'.
Proof. intros. unfold cell, row_set. simpl. by rewrite lookup_insert_ne. Qed.

Lemma has_summary_set (r : row) (v : string) :
  strip v ≠ "" → has_summary (row_set r "summary" v) = true.
Proof. intros Hv. apply has_summary_spec. exists v. by rewrite row_get_set. Qed.

Section ProcessorFacts.
Context {platform : Platform} {A : Type}.
Variable chat_completion : string → string → A → result string * A.
Variables abspath dirname : string → string.
Variable mkstemp_name : gmap string table → string → string → string → string.

Implicit Types (w : world (pstate A)) (r : row) (rows : list row).

Lemma process_row_skip tpl model dry i r updated w :
  has_summary r = true →
  process_row chat_completion tpl model dry i r updated w = (Ok (r, updated), w).
Proof. intros H. unfold process_row. by rewrite H. Qed.

Lemma process_row_ok tpl model dry i r updated w r' updated' w' :
  process_row chat_completion tpl model dry i r updated w = (Ok (r', updated'), w') →
  row_step r updated r' updated'.
Proof.
  unfold process_row. destruct (has_summary r) eqn:Hs.
  { intros [= <- <- <-]. by constructor. }
  munfold. destruct (render_prompt _ _ _) as [prompt|e]; [|done].
  simpl. destruct dry; simpl.
  { intros [= <- <- <-]. by constructor. }
  destruct (retry_backoff _ _ _ _ _) as [[summary|e] w1]; simpl.
  - unfold time_sleep. simpl. intros [= <- <- <-]. by constructor.
  - destruct (is_Exception e); simpl; [|done].
    intros [= <- <- <-]. by constructor.
Qed.

Lemma process_rows_cons_ok tpl model dry i r rows updated w rows' updated' w' :
  process_rows chat_completion tpl model dry i (r :: rows) updated w
    = (Ok (rows', updated'), w') →
  ∃ r1 u1 w1 rows1,
    process_row chat_completion tpl model dry i r updated w = (Ok (r1, u1), w1) ∧
    process_rows chat_completion tpl model dry (S i) rows u1 w1
      = (Ok (rows1, updated'), w') ∧
    rows' = r1 :: rows1.
Proof.
  cbn [process_rows]. munfold.
  destruct (process_row _ _ _ _ _ _ _ _) as [[[r1 u1]|e] w1] eqn:Hrow; [|done].
  destruct (process_rows _ _ _ _ _ _ _ _) as [[[rows1 u2]|e] w2] eqn:Hrows; [|done].
  intros [= <- <- <-]. by exists r1, u1, w1, rows1.
Qed.

(** The loop relates the rows position by position; the flag only ever
    goes up, and it stays down only if no row was touched. *)
Lemma process_rows_ok tpl model dry i rows updated w rows' updated' w' :
  process_rows chat_completion tpl model dry i rows updated w
    = (Ok (rows', updated'), w') →
  Forall2 (λ r r', ∃ u u', row_step r u r' u') rows rows' ∧
  (updated = true → updated' = true) ∧
  (updated' = false → rows' = rows).
Proof.
  revert i updated w rows'. induction rows as [|r rows IH]; intros i updated w rows'.
  - cbn [process_rows]. munfold. intros [= <- <- <-]. split; [constructor|done].
  - intros (r1 & u1 & w1 & rows1 & Hrow & Hrows & ->)%process_rows_cons_ok.
    apply process_row_ok in Hrow. apply IH in Hrows as (HF & Hup & Hsame).
    split; [constructor; eauto|]. split.
    + intros ->. apply Hup. by destruct Hrow.
    + intros ->. rewrite Hsame by done.
      destruct Hrow; [done..|]. by specialize (Hup eq_refl).
Qed.

(** Failures of the remote service are failures of the call adapter, each
    one recorded in [calls]. *)
Lemma call_openai_chat_fails prompt model exceptions k a es a' (s : pstate A) :
  fails (chat_completion prompt model) exceptions k a es a' →
  api s = a →
  fails (call_openai_chat chat_completion prompt model) exceptions k s es
    (PState a' (calls s ++ (CallRecord prompt model ∘ Raise <$> es)) (stdout s)
       (errors_log s) (texts s) (tables s) (fs_log s)).
Proof.
  intros Hf. revert s. induction Hf as [a|k a e a1 es a' Hcall Hexc _ IH]; intros s Hs.
  - destruct s; simpl in *; subst. rewrite app_nil_r. constructor.
  - eapply fails_S; [|done|].
    + unfold call_openai_chat. rewrite Hs, Hcall. reflexivity.
    + specialize (IH (PState a1 (calls s ++ [CallRecord prompt model (Raise e)])
                        (stdout s) (errors_log s) (texts s) (tables s) (fs_log s))
                     eq_refl).
      simpl in IH. by rewrite <- app_assoc in IH.
Qed.



(** C2.  A row whose [summary] is present and not blank once trimmed is
    skipped: the loop body returns it as it is, with the flag and the
    world untouched, and at the end of the loop the row at its position is
    the row that was loaded, field for field. *)
Theorem summarized_row_unchanged tpl model dry i rows updated w rows' updated' w' j r s :
  rows !! j = Some r →
  row_get r "summary" = Some s →
  strip s ≠ "" →
  process_rows chat_completion tpl model dry i rows updated w
    = (Ok (rows', updated'), w') →
  (∀ u0 w0, process_row chat_completion tpl model dry (i + j) r u0 w0 = (Ok (r, u0), w0)) ∧
  rows' !! j = Some r.
Proof.
  intros Hj Hget Hstrip Hrun.
  assert (has_summary r = true) as Hs by (apply has_summary_spec; eauto).
  split; [intros; by apply process_row_skip|].
  apply process_rows_ok in Hrun as (HF & _).
  destruct (Forall2_lookup_l _ _ _ _ _ HF Hj) as (r' & Hj' & u & u' & Hstep).
  rewrite Hj'. destruct Hstep; congruence.
Qed.

End ProcessorFacts.

(** Witness of C2: the second of three rows already has a summary. *)
Lemma summarized_row_unchanged_witness :
  (∀ u0 w0,
     process_row scripted "Summarize: {{ARTICLE}}" "gpt-3.5-turbo" false (0 + 1)
       (read_row sample_header ["2"; "second"; " done "]) u0 w0
     = (Ok (read_row sample_header ["2"; "second"; " done "], u0), w0)) ∧
  [row_set (read_row sample_header ["1"; "first"; ""]) "summary" "S1";
   read_row sample_header ["2"; "second"; " done "];
   row_set (read_row sample_header ["3"; "third"; "  "]) "summary" "S3"] !! 1%nat
  = Some (read_row sample_header ["2"; "second"; " done "]).
Proof.
  apply (summarized_row_unchanged scripted "Summarize: {{ARTICLE}}" "gpt-3.5-turbo" false 0
           (read_rows sample_header [["1"; "first"; ""]; ["2"; "second"; " done "]; ["3"; "third"; "  "]])
           false
           (sample_world [] [Ok "S1"; Ok "S3"])
           _ true
           (World (PState [] [CallRecord "Summarize: first" "gpt-3.5-turbo" (Ok "S1");
                              CallRecord "Summarize: third" "gpt-3.5-turbo" (Ok "S3")]
                     ["Processing id=1 (index=0)"; "Processing id=3 (index=2)"] []
                     {["prompts/summarize.txt" := "Summarize: {{ARTICLE}}"]}
                     {["/data/sample.csv" := []]} [])
                  [pacing_delay; pacing_delay])
           1%nat _ " done ").
  - reflexivity.
  - vm_compute. reflexivity.
  - vm_compute. discriminate.
  - vm_compute. reflexivity.
Defined.



(** ** Rows and records *)

Lemma dict_zip_go_lookup (f : string → string) (ks : list string)
    (d : gmap string (option string)) (k : string) :
  foldl (λ d kv, <[kv.1 := Some kv.2]> d) d (zip ks (f <$> ks)) !! k
  = if decide (k ∈ ks) then Some (Some (f k)) else d !! k.
Proof.
  revert d. induction ks as [|a ks IH]; intros d.
  - done.
  - cbn [fmap list_fmap zip zip_with foldl].
    rewrite IH. destruct (decide (k ∈ ks)) as [Hin|Hnin].
    + by rewrite decide_True by (by apply list_elem_of_further).
    + destruct (decide (k = a)) as [->|Hne].
      * rewrite lookup_insert_eq. by rewrite decide_True by apply list_elem_of_here.
      * rewrite lookup_insert_ne by done.
        by rewrite decide_False by (by intros [?|?]%elem_of_cons).
Qed.

(** [dict(zip(ks, [f(k) for k in ks]))] maps each key [k] to [f(k)]. *)
Lemma dict_zip_fmap_lookup (f : string → string) (ks : list string) (k : string) :
  dict_zip ks (f <$> ks) !! k = if decide (k ∈ ks) then Some (Some (f k)) else None.
Proof. unfold dict_zip. by rewrite dict_zip_go_lookup, lookup_empty. Qed.

Lemma wrong_fields_nil (fieldnames : list string) (r : row) :
  rest r = None →
  (∀ k, is_Some (cells r !! k) → k ∈ fieldnames) →
  wrong_fields fieldnames r = [].
Proof.
  intros Hrest Hdom. unfold wrong_fields. rewrite Hrest, app_nil_r.
  rewrite (elem_of_nil_inv (filter _ _)); [done|].
  intros k [Hk Hin%elem_of_elements%elem_of_dom]%list_elem_of_filter. auto.
Qed.

(** The records of rows read back from records of full length: the cells are
    those of the records, whatever the duplicates in the header. *)
Lemma cell_read_row_fmap (f : string → string) (fieldnames : list string) (k : string) :
  k ∈ fieldnames →
  cell (read_row fieldnames (f <$> fieldnames)) k = f k.
Proof.
  intros Hk. unfold read_row. rewrite length_fmap, Nat.ltb_irrefl.
  unfold cell. simpl. by rewrite dict_zip_fmap_lookup, decide_True.
Qed.

Lemma row_get_read_row_fmap (f : string → string) (fieldnames : list string) (k : string) :
  k ∈ fieldnames →
  row_get (read_row fieldnames (f <$> fieldnames)) k = Some (f k).
Proof.
  intros Hk. unfold read_row. rewrite length_fmap, Nat.ltb_irrefl.
  unfold row_get. simpl. by rewrite dict_zip_fmap_lookup, decide_True.
Qed.

(** [writeheader] writes the field names themselves. *)
Lemma dict_zip_self_lookup (fieldnames : list string) (k : string) :
  dict_zip fieldnames fieldnames !! k
  = if decide (k ∈ fieldnames) then Some (Some k) else None.
Proof.
  pose proof (dict_zip_fmap_lookup id fieldnames k) as H.
  by rewrite list_fmap_id in H.
Qed.

Lemma dict_to_list_header (fieldnames : list string) :
  dict_to_list fieldnames (Row (dict_zip fieldnames fieldnames) None) = Ok fieldnames.
Proof.
  unfold dict_to_list. rewrite wrong_fields_nil; simpl; [|done|].
  - f_equal. transitivity (id <$> fieldnames); [|apply list_fmap_id].
    apply list_fmap_ext. intros i k Hk. unfold cell. simpl.
    rewrite dict_zip_self_lookup, decide_True; [done|].
    by eapply list_elem_of_lookup_2.
  - intros k. rewrite dict_zip_self_lookup.
    destruct (decide (k ∈ fieldnames)); [done|]. by intros [? ?].
Qed.

(** ** Operations on the CSV files *)

Section FileFacts.
Context {platform : Platform} {A : Type}.
Implicit Types (s : pstate A) (w : world (pstate A)) (fs : gmap string table).

Lemma fs_run_app (evs1 evs2 : list fs_event) s :
  fs_run evs2 (fs_run evs1 s) = fs_run (evs1 ++ evs2) s.
Proof. unfold fs_run. by rewrite foldl_app. Qed.

Lemma fs_run_tables (evs : list fs_event) s :
  tables (fs_run evs s) = foldl fs_apply (tables s) evs.
Proof. revert s. induction evs as [|ev evs IH]; intros s; [done|]. simpl. by rewrite IH. Qed.

Lemma fs_run_fs_log (evs : list fs_event) s :
  fs_log (fs_run evs s) = fs_log s ++ evs.
Proof.
  revert s. induction evs as [|ev evs IH]; intros s; simpl.
  - by rewrite app_nil_r.
  - rewrite IH. simpl. by rewrite <- app_assoc.
Qed.

(** Operations on the files leave everything else alone. *)
Lemma fs_run_frame (evs : list fs_event) s :
  api (fs_run evs s) = api s ∧ calls (fs_run evs s) = calls s ∧
  stdout (fs_run evs s) = stdout s ∧ errors_log (fs_run evs s) = errors_log s ∧
  texts (fs_run evs s) = texts s.
Proof.
  revert s. induction evs as [|ev evs IH]; intros s; [done|].
  simpl. destruct (IH (fs_step s ev)) as (-> & -> & -> & -> & ->). done.
Qed.

(** Writing records to an existing file extends it. *)
Lemma replay_writes (p : string) (recs : table) fs (t : table) :
  fs !! p = Some t →
  foldl fs_apply fs (Wrote p <$> recs) = <[p := t ++ recs]> fs.
Proof.
  revert fs t. induction recs as [|rec recs IH]; intros fs t Hp; simpl.
  - by rewrite app_nil_r, insert_id.
  - rewrite Hp. simpl. rewrite (IH _ (t ++ [rec])) by apply lookup_insert_eq.
    by rewrite insert_insert_eq, <- app_assoc.
Qed.

Lemma replay_temp_file (dir tmp : string) (headers : list string) (recs : table) fs :
  foldl fs_apply fs ([Created dir tmp; Wrote tmp headers] ++ (Wrote tmp <$> recs))
  = <[tmp := headers :: recs]> fs.
Proof.
  rewrite foldl_app. simpl. rewrite lookup_insert_eq. simpl.
  rewrite (replay_writes _ _ _ [headers]) by apply lookup_insert_eq.
  by rewrite !insert_insert_eq.
Qed.

(** After a successful [persist] the target holds the header and all the
    records. *)
Lemma replay_persist (dir tmp csv_path : string) (headers : list string) (recs : table) fs :
  foldl fs_apply fs (persist_events dir tmp csv_path headers recs) !! csv_path
  = Some (headers :: recs).
Proof.
  unfold persist_events. rewrite app_assoc, foldl_app, replay_temp_file. simpl.
  rewrite lookup_insert_eq. apply lookup_insert_eq.
Qed.

(** Operations on the temporary file do not touch the target. *)
Lemma replay_temp_other (dir tmp csv_path : string) (headers : list string)
    (recs : table) fs :
  tmp ≠ csv_path →
  foldl fs_apply fs ([Created dir tmp; Wrote tmp headers] ++ (Wrote tmp <$> recs)) !! csv_path
  = fs !! csv_path.
Proof. intros Hne. rewrite replay_temp_file. by apply lookup_insert_ne. Qed.

Lemma replay_writes_to_other (p csv_path : string) (evs : list fs_event) fs :
  Forall (writes_to p) evs →
  p ≠ csv_path →
  foldl fs_apply fs evs !! csv_path = fs !! csv_path.
Proof.
  intros Hevs Hne. revert fs. induction Hevs as [|ev evs Hev _ IH]; intros fs; [done|].
  simpl. rewrite IH. destruct ev as [d q|q rec|src dst]; simpl in *; [| |done].
  - subst. by apply lookup_insert_ne.
  - subst. by apply lookup_insert_ne.
Qed.

Lemma writerows_run (p : string) (headers : list string) (rows : list row) w :
  (Forall (fits headers) rows ∧
   writerows p headers rows w
   = (Ok tt, World (fs_run (Wrote p <$> records_of headers rows) (ext w)) (slept w)))
  ∨ (¬ Forall (fits headers) rows ∧
     ∃ e evs, writerows p headers rows w = (Raise e, World (fs_run evs (ext w)) (slept w)) ∧
              Forall (writes_to p) evs).
Proof.
  revert w. induction rows as [|r rows IH]; intros w.
  - left. split; [constructor|]. by destruct w.
  - cbn [writerows]. unfold writerow, dict_to_list. munfold.
    destruct (wrong_fields headers r) as [|k wrong] eqn:Hfit.
    + simpl. destruct (IH (World (fs_step (ext w) (Wrote p (cell r <$> headers))) (slept w)))
        as [[Hall Hrun]|(Hnot & e & evs & Hrun & Hevs)].
      * left. split; [by constructor|]. by rewrite Hrun.
      * right. split; [by intros [? ?]%Forall_cons|].
        exists e, (Wrote p (cell r <$> headers) :: evs). rewrite Hrun.
        split; [done|]. by constructor.
    + right. split.
      { intros [Hr _]%Forall_cons. unfold fits in Hr. congruence. }
      eexists _, []. split; [by destruct w|constructor].
Qed.
End FileFacts.

(** ** Persisting the dataset *)

Section PersistFacts.
Context {platform : Platform} {A : Type}.
Variables abspath dirname : string → string.
Variable mkstemp_name : gmap string table → string → string → string → string.
Implicit Types (s : pstate A) (w : world (pstate A)).

(** [persist] either writes every row and replaces the target, or stops at
    the first row that does not fit the header, having touched the temporary
    file only. *)
Lemma persist_run (csv_path : string) (headers : list string) (rows : list row) w :
  let dir := tmp_dir_of abspath dirname csv_path in
  let tmp := mkstemp_name (tables (ext w)) ".csv" "csvtmp" dir in
  (Forall (fits headers) rows ∧
   persist abspath dirname mkstemp_name csv_path headers rows w
   = (Ok tt,
      World (add_line ("Wrote updates to " +:+ csv_path)
               (fs_run (persist_events dir tmp csv_path headers (records_of headers rows))
                  (ext w)))
            (slept w)))
  ∨ (¬ Forall (fits headers) rows ∧
     ∃ e evs,
       persist abspath dirname mkstemp_name csv_path headers rows w
       = (Raise e, World (fs_run (Created dir tmp :: evs) (ext w)) (slept w)) ∧
       Forall (writes_to tmp) evs).
Proof.
  intros dir tmp. unfold persist, mkstemp, writeheader, writerow.
  rewrite dict_to_list_header. munfold. unfold fs_do, print. munfold.
  cbn [ext slept fst snd]. fold dir tmp.
  set (w1 := World (fs_step (fs_step (ext w) (Created dir tmp)) (Wrote tmp headers)) (slept w)).
  destruct (writerows_run tmp headers rows w1)
    as [[Hall Hrun]|(Hnot & e & evs & Hrun & Hevs)]; rewrite Hrun.
  - left. split; [done|]. cbn [ext slept]. do 3 f_equal.
    unfold persist_events. rewrite <- !fs_run_app. reflexivity.
  - right. split; [done|]. exists e, (Wrote tmp headers :: evs).
    split; [reflexivity|]. by constructor.
Qed.
End PersistFacts.

(** ** What the row loop leaves alone *)

#[local] Instance same_files_preorder {A} : PreOrder (@same_files A).
Proof.
  split.
  - by intros s.
  - intros s1 s2 s3 (? & ? & ?) (? & ? & ?). unfold same_files. split_and!; congruence.
Qed.

#[local] Instance more_calls_preorder {A} : PreOrder (@more_calls A).
Proof.
  split.
  - intros s. exists []. by rewrite app_nil_r.
  - intros s1 s2 s3 [n1 H1] [n2 H2]. exists (n1 ++ n2). by rewrite H2, H1, app_assoc.
Qed.

#[local] Instance same_calls_preorder {A} : PreOrder (@same_calls A).
Proof. split; unfold same_calls; [by intros s|intros s1 s2 s3; congruence]. Qed.

Lemma retry_loop_preserves {platform : Platform} {St V} (R : relation St) `{!PreOrder R}
    (func : operation (St:=St) (V:=V)) base exceptions n i last_exc (w : world St) :
  (∀ s, R s (func s).2) →
  R (ext w) (ext (retry_loop func base exceptions n i last_exc w).2).
Proof.
  intros Hfunc. revert i last_exc w. induction n as [|n IH]; intros i last_exc w.
  - simpl. by destruct last_exc.
  - cbn [retry_loop]. munfold. simpl.
    pose proof (Hfunc (ext w)) as Hstep.
    destruct (func (ext w)) as [[v|e] s1]; simpl in *; [done|].
    destruct (exceptions e); simpl; [|done].
    unfold time_sleep. simpl. destruct (sleep_refusal _); simpl; [done|].
    etrans; [exact Hstep|]. apply (IH _ _ (World s1 _)).
Qed.

Section LoopInvariant.
Context {platform : Platform} {A : Type}.
Variable chat_completion : string → string → A → result string * A.
Variable dry_run : bool.
Variable R : relation (pstate A).
Context `{!PreOrder R}.
Hypothesis R_print : ∀ line s, R s (add_line line s).
Hypothesis R_log : ∀ line s, R s (add_error line s).
Hypothesis R_call : dry_run = false →
  ∀ prompt model s, R s (call_openai_chat chat_completion prompt model s).2.
Implicit Types (w : world (pstate A)).

Lemma process_row_preserves tpl model i r updated w :
  R (ext w) (ext (process_row chat_completion tpl model dry_run i r updated w).2).
Proof using All.
  unfold process_row. destruct (has_summary r); [done|].
  munfold. destruct (render_prompt _ _ _) as [prompt|e]; [|done].
  unfold print, log_error. munfold. cbn [ext slept fst snd].
  destruct dry_run eqn:Hdry.
  - cbn [ext slept fst snd]. do 3 (etrans; [apply R_print|]). apply R_print.
  - etrans; [apply R_print|].
    pose proof (retry_loop_preserves R (call_openai_chat chat_completion prompt model)
                  1 is_Exception (Z.to_nat 4) 0 None
                  (World (add_line (processing_line r i) (ext w)) (slept w))
                  (R_call eq_refl prompt model)) as Hretry.
    unfold retry_backoff.
    destruct (retry_loop _ _ _ _ _ _ _) as [[summary|e] w1]; cbn [ext slept fst snd] in *.
    + by rewrite time_sleep_pacing.
    + destruct (is_Exception e); cbn [ext slept fst snd]; [|done].
      etrans; [exact Hretry|]. etrans; [apply R_print|]. apply R_log.
Qed.

Lemma process_rows_preserves tpl model i rows updated w :
  R (ext w) (ext (process_rows chat_completion tpl model dry_run i rows updated w).2).
Proof using All.
  revert i updated w. induction rows as [|r rows IH]; intros i updated w; [done|].
  cbn [process_rows]. munfold.
  pose proof (process_row_preserves tpl model i r updated w) as Hrow.
  destruct (process_row _ _ _ _ _ _ _ _) as [[[r1 u1]|e] w1]; [|done].
  pose proof (IH (S i) u1 w1) as Hrows.
  destruct (process_rows _ _ _ _ _ _ _ _) as [[[rows1 u2]|e] w2]; simpl in *; by etrans.
Qed.
End LoopInvariant.

Section LoopFrames.
Context {platform : Platform} {A : Type}.
Variable chat_completion : string → string → A → result string * A.
Implicit Types (w : world (pstate A)).

Lemma call_openai_chat_same_files prompt model (s : pstate A) :
  same_files s (call_openai_chat chat_completion prompt model s).2.
Proof. unfold call_openai_chat. by destruct (chat_completion _ _ _). Qed.

Lemma call_openai_chat_more_calls prompt model (s : pstate A) :
  more_calls s (call_openai_chat chat_completion prompt model s).2.
Proof. unfold call_openai_chat. destruct (chat_completion _ _ _). by eexists. Qed.

(** The row loop does not touch the files. *)
Lemma process_rows_same_files tpl model dry i rows updated w :
  same_files (ext w) (ext (process_rows chat_completion tpl model dry i rows updated w).2).
Proof.
  apply process_rows_preserves; [apply _|done|done|].
  intros _ prompt model' s. apply call_openai_chat_same_files.
Qed.

(** The row loop only adds to the calls. *)
Lemma process_rows_more_calls tpl model dry i rows updated w :
  more_calls (ext w) (ext (process_rows chat_completion tpl model dry i rows updated w).2).
Proof.
  apply process_rows_preserves; [apply _| | |].
  - intros line s. exists []. by rewrite app_nil_r.
  - intros line s. exists []. by rewrite app_nil_r.
  - intros _ prompt model' s. apply call_openai_chat_more_calls.
Qed.

(** In a dry run the row loop makes no call. *)
Lemma process_rows_dry_run_same_calls tpl model i rows updated w :
  same_calls (ext w) (ext (process_rows chat_completion tpl model true i rows updated w).2).
Proof. apply process_rows_preserves; [apply _|done|done|done]. Qed.

(** What a dry run does with a row that needs work.  When the row has
    an article, no call is made (the world only gains printed lines), the
    lines printed are the progress line, the preview markers and the first
    1000 characters of the rendered prompt, the fixed placeholder is stored
    in [summary] and the flag is raised.  When the row has no article (a
    record shorter than the header), rendering the prompt raises
    [TypeError] and the run is aborted: nothing is printed or stored. *)
Lemma dry_run_row tpl model i r updated w :
  has_summary r = false →
  match row_get_default r "article" "" with
  | Some article =>
      process_row chat_completion tpl model true i r updated w
      = (Ok (row_set r "summary" dry_run_placeholder, true),
         World (add_line "--- end preview ---"
                  (add_line (str_take 1000 (str_replace "{{ARTICLE}}" article tpl))
                     (add_line "--- prompt preview ---"
                        (add_line (processing_line r i) (ext w)))))
               (slept w))
  | None =>
      process_row chat_completion tpl model true i r updated w
      = (Raise (Exception "TypeError" "replace() argument 2 must be str, not None"), w)
  end.
Proof.
  intros Hs. unfold process_row. rewrite Hs.
  destruct (row_get_default r "article" "") as [article|]; reflexivity.
Qed.
End LoopFrames.

(** A dry run on a row read from a record that has an id and nothing else:
    the row needs work and has no article. *)
Lemma dry_run_row_short_record :
  process_row scripted "Summarize: {{ARTICLE}}" "gpt-3.5-turbo" true 0
    (read_row sample_header ["5"]) false
    (sample_world [sample_header; ["5"]] [])
  = (Raise (Exception "TypeError" "replace() argument 2 must be str, not None"),
     sample_world [sample_header; ["5"]] []).
Proof.
  apply (dry_run_row scripted "Summarize: {{ARTICLE}}" "gpt-3.5-turbo" 0
           (read_row sample_header ["5"]) false (sample_world [sample_header; ["5"]] [])).
  vm_compute. reflexivity.
Defined.

(** C5.  The claim fails on the code for a dataset whose only record is
    shorter than the header.  [DictReader] fills the missing fields with
    [None]: the row needs work, [row.get("article", "")] is [None], and
    rendering the prompt raises [TypeError] outside any handler.  The dry
    run is aborted: no progress line, no preview, no placeholder, no write;
    the world is left as it was. *)
Theorem dry_run_short_record_aborts {platform : Platform} :
  read_rows sample_header [["5"]] = [read_row sample_header ["5"]] ∧
  has_summary (read_row sample_header ["5"]) = false ∧
  row_get_default (read_row sample_header ["5"]) "article" "" = None ∧
  process_csv scripted id simple_dirname fresh_tmp
    "/data/sample.csv" "prompts/summarize.txt" "gpt-3.5-turbo" 5 true
    (sample_world [sample_header; ["5"]] [])
  = (Raise (Exception "TypeError" "replace() argument 2 must be str, not None"),
     sample_world [sample_header; ["5"]] []).
Proof. repeat split; vm_compute; reflexivity. Qed.

(** ** The header check *)

Section SchemaFacts.
Context {platform : Platform} {A : Type}.
Variable chat_completion : string → string → A → result string * A.
Variables abspath dirname : string → string.
Variable mkstemp_name : gmap string table → string → string → string → string.
Implicit Types (w : world (pstate A)).

(** C7, amended.  When the file has no header, or the header lacks
    [article] or [summary], the processor prints the message and exits with
    status 1; no row has been processed and nothing has been written: the
    world differs by the printed line only. *)
Theorem missing_column_exits csv_path prompt_path model batch_size dry_run w tpl t :
  texts (ext w) !! prompt_path = Some tpl →
  tables (ext w) !! csv_path = Some t →
  (fieldnames_of t = None ∨
   ∃ headers, fieldnames_of t = Some headers ∧ ("article" ∉ headers ∨ "summary" ∉ headers)) →
  process_csv chat_completion abspath dirname mkstemp_name
    csv_path prompt_path model batch_size dry_run w
  = (Raise (SystemExit 1), World (add_line schema_message (ext w)) (slept w)).
Proof.
  intros Htpl Ht Hbad. unfold process_csv, load_prompt, read_csv. munfold.
  rewrite Htpl, Ht.
  assert (headers_ok (fieldnames_of t) = false) as ->; [|reflexivity].
  destruct Hbad as [->|(headers & -> & Hmiss)]; [done|].
  simpl. apply andb_false_iff.
  destruct Hmiss; [left|right]; by apply bool_decide_eq_false.
Qed.
End SchemaFacts.

(** Witness of C7: the header has no [summary] column. *)
Lemma missing_column_exits_witness :
  process_csv scripted id simple_dirname fresh_tmp
    "/data/sample.csv" "prompts/summarize.txt" "gpt-3.5-turbo" 5 false
    (sample_world [["id"; "article"]; ["1"; "text"]] [Ok "S1"])
  = (Raise (SystemExit 1),
     World (add_line schema_message
              (ext (sample_world [["id"; "article"]; ["1"; "text"]] [Ok "S1"])))
           (slept (sample_world [["id"; "article"]; ["1"; "text"]] [Ok "S1"]))).
Proof.
  apply (missing_column_exits scripted id simple_dirname fresh_tmp
           "/data/sample.csv" "prompts/summarize.txt" "gpt-3.5-turbo" 5 false
           (sample_world [["id"; "article"]; ["1"; "text"]] [Ok "S1"])
           "Summarize: {{ARTICLE}}" [["id"; "article"]; ["1"; "text"]]).
  - vm_compute. reflexivity.
  - vm_compute. reflexivity.
  - right. exists ["id"; "article"]. split; [reflexivity|]. right.
    intros H%list_elem_of_In. simpl in H. intuition discriminate.
Defined.

(** C7 as stated fails for [id]: a header without it passes the check, the
    row is processed (its id prints as [None]) and the file is written. *)
Lemma header_without_id_counterexample :
  ("id" ∉ ["article"; "summary"]) ∧
  (let run :=
     process_csv scripted id simple_dirname fresh_tmp
       "/data/sample.csv" "prompts/summarize.txt" "gpt-3.5-turbo" 5 true
       (sample_world [["article"; "summary"]; ["text"; ""]] []) in
   run.1 = Ok tt ∧
   stdout (ext run.2)
   = ["Processing id=None (index=0)"; "--- prompt preview ---"; "Summarize: text";
      "--- end preview ---"; "Wrote updates to /data/sample.csv"] ∧
   tables (ext run.2) !! "/data/sample.csv"
   = Some [["article"; "summary"]; ["text"; dry_run_placeholder]]).
Proof.
  split.
  - intros H%list_elem_of_In. simpl in H. intuition discriminate.
  - vm_compute. done.
Qed.

(** ** When the flag is raised *)

Section FlagFacts.
Context {platform : Platform} {A : Type}.
Variable chat_completion : string → string → A → result string * A.
Implicit Types (w : world (pstate A)).

(** The retry loop on the call adapter returns a text exactly when one of
    the calls it made returned one. *)
Lemma retry_loop_returned prompt model base exceptions n i last_exc w :
  let run := retry_loop (call_openai_chat chat_completion prompt model)
               base exceptions n i last_exc w in
  ∃ new, calls (ext run.2) = calls (ext w) ++ new ∧
         ((∃ v, run.1 = Ok v) ↔ Exists returned new).
Proof.
  cbv zeta. revert i last_exc w. induction n as [|n IH]; intros i last_exc w.
  - exists []. rewrite app_nil_r. split; [by destruct last_exc|].
    split; [|by intros ?%Exists_nil]. destruct last_exc; by intros [v [=]].
  - rewrite retry_loop_S.
    assert (∃ r a1, call_openai_chat chat_completion prompt model (ext w)
              = (r, PState a1 (calls (ext w) ++ [CallRecord prompt model r])
                      (stdout (ext w)) (errors_log (ext w)) (texts (ext w))
                      (tables (ext w)) (fs_log (ext w)))) as (r & a1 & Hcall).
    { unfold call_openai_chat. destruct (chat_completion _ _ _) as [r a1]. by exists r, a1. }
    rewrite Hcall. destruct r as [v|e].
    { eexists. split; [done|]. cbn [fst]. split; [|by eauto].
      intros _. apply Exists_cons_hd. by exists v. }
    assert (¬ returned (CallRecord prompt model (Raise e))) as Hnot by (by intros [v [=]]).
    destruct (exceptions e).
    2:{ eexists. split; [done|]. cbn [fst]. split; [by intros [v [=]]|].
        by intros [?|?%Exists_nil]%Exists_cons. }
    unfold time_sleep. cbn [ext slept]. destruct (sleep_refusal _) as [e2|].
    { eexists. split; [done|]. cbn [fst]. split; [by intros [v [=]]|].
      by intros [?|?%Exists_nil]%Exists_cons. }
    match goal with |- context [retry_loop _ _ _ n ?j ?l ?w1] =>
      destruct (IH j l w1) as (new & Hnew & Hiff) end.
    exists (CallRecord prompt model (Raise e) :: new). rewrite Hnew. cbn [ext calls].
    split; [by rewrite <- app_assoc|]. rewrite Hiff, Exists_cons. tauto.
Qed.

(** One iteration of the row loop raises the flag exactly when it stores a
    summary: in a dry run for a row that needs work, otherwise when one of
    its calls returned a text; the row it stores into needed work. *)
Lemma process_row_flag tpl model dry i r updated w r' updated' w' :
  process_row chat_completion tpl model dry i r updated w = (Ok (r', updated'), w') →
  ∃ new, calls (ext w') = calls (ext w) ++ new ∧
    (updated' = true ↔
       updated = true ∨ (if dry then needs_work r else Exists returned new)) ∧
    (updated = false → updated' = true →
       has_summary r = false ∧ ∃ s, r' = row_set r "summary" s).
Proof.
  assert (∀ P : Prop, updated = true ↔ updated = true ∨ (P ∧ False)) as Hsame by tauto.
  unfold process_row, needs_work. destruct (has_summary r) eqn:Hs.
  { intros [= <- <- <-]. exists []. rewrite app_nil_r. split; [done|]. split.
    - destruct dry; [by intuition|]. rewrite Exists_nil. tauto.
    - by intros ->. }
  munfold. destruct (render_prompt _ _ _) as [prompt|e]; [|done].
  unfold print, log_error. munfold. cbn [ext slept fst snd].
  destruct dry.
  { intros [= <- <- <-]. exists []. cbn. rewrite app_nil_r. split; [done|].
    split; [tauto|]. intros _ _. split; [done|]. by eexists. }
  unfold retry_backoff.
  pose proof (retry_loop_returned prompt model 1 is_Exception (Z.to_nat 4) 0 None
                (World (add_line (processing_line r i) (ext w)) (slept w)))
    as (new & Hnew & Hiff).
  destruct (retry_loop _ _ _ _ _ _ _) as [[summary|e] w1]; cbn [ext slept fst snd] in *.
  - change pacing_delay with (3 # 10). rewrite time_sleep_pacing. cbn [fst snd ext].
    intros [= <- <- <-]. exists new. cbn [ext]. split; [done|]. split.
    + split; [|done]. intros _. right. apply Hiff. by eexists.
    + intros _ _. split; [done|]. by eexists.
  - destruct (is_Exception e); cbn [ext snd fst]; [|done].
    intros [= <- <- <-]. exists new. cbn [ext calls]. split; [done|].
    assert (¬ Exists returned new) as Hnone by (rewrite <- Hiff; by intros [v [=]]).
    split; [tauto|]. by intros ->.
Qed.

(** The same for the whole loop: the flag it returns is the flag it was
    given or the trace of a store, and when it raised the flag itself,
    some row that needed work holds a stored summary. *)
Lemma process_rows_flag tpl model dry i rows updated w rows' updated' w' :
  process_rows chat_completion tpl model dry i rows updated w = (Ok (rows', updated'), w') →
  ∃ new, calls (ext w') = calls (ext w) ++ new ∧
    (updated' = true ↔
       updated = true ∨ (if dry then Exists needs_work rows else Exists returned new)) ∧
    (updated = false → updated' = true →
       ∃ j r s, rows !! j = Some r ∧ has_summary r = false ∧
                rows' !! j = Some (row_set r "summary" s)).
Proof.
  revert i updated w rows'. induction rows as [|r rows IH]; intros i updated w rows'.
  - cbn [process_rows]. munfold. intros [= <- <- <-]. exists []. rewrite app_nil_r.
    split; [done|]. split; [|by intros ->].
    destruct dry; rewrite Exists_nil; tauto.
  - intros (r1 & u1 & w1 & rows1 & Hrow & Hrows & ->)%process_rows_cons_ok.
    apply process_row_flag in Hrow as (n1 & Hn1 & Hf1 & Hs1).
    apply IH in Hrows as (n2 & Hn2 & Hf2 & Hs2).
    exists (n1 ++ n2). rewrite Hn2, Hn1, <- app_assoc. split; [done|]. split.
    + rewrite Hf2, Hf1. destruct dry; [rewrite Exists_cons|rewrite Exists_app]; tauto.
    + intros Hu Hu'. destruct u1 eqn:Hu1.
      * destruct (Hs1 Hu eq_refl) as (Hneeds & s & ->).
        by exists 0%nat, r, s.
      * destruct (Hs2 eq_refl Hu') as (j & r0 & s & Hj & Hneeds & Hj').
        by exists (S j), r0, s.
Qed.
End FlagFacts.

(** ** Writing the dataset back *)

Section WriteFacts.
Context {platform : Platform} {A : Type}.
Variable chat_completion : string → string → A → result string * A.
Variables abspath dirname : string → string.
Variable mkstemp_name : gmap string table → string → string → string → string.
Implicit Types (w : world (pstate A)).

(** [mkstemp] creates a file that did not exist. *)
Hypothesis mkstemp_fresh :
  ∀ fs suffix prefix dir, fs !! mkstemp_name fs suffix prefix dir = None.

Lemma split_snoc {B} (l pre suf : list B) (x : B) :
  l ++ [x] = pre ++ suf →
  (suf = [] ∧ pre = l ++ [x]) ∨ ∃ suf', suf = suf' ++ [x] ∧ l = pre ++ suf'.
Proof.
  destruct suf as [|y suf _] using rev_ind.
  - rewrite app_nil_r. intros <-. by left.
  - rewrite app_assoc. intros [-> ->]%app_inj_tail. right. by eexists.
Qed.

(** C4, amended.  The flag [updated] is set by the row loop exactly when
    it stored a summary: in a dry run when some row needed work, otherwise
    when some call returned a text; then some row that needed work holds
    the stored summary, and every changed row sets the flag.  After the
    loop the file is written only when the flag is set.  When it is not
    set, no operation on the files happens.  When it is set, a new
    temporary file is created in the directory of the target
    ([dirname(abspath(csv_path))], or [.] when that is empty), the header
    and the rows are written to it, and at every point of that sequence
    the target holds either its old content or the complete new dataset;
    if every row fits the header the sequence ends with the replacement of
    the target by the temporary file, the only operation that touches the
    target. *)
Theorem dataset_written_atomically_iff_updated
    tpl model dry rows w0 rows' updated w csv_path headers old :
  tables (ext w0) !! csv_path = Some old →
  process_rows chat_completion tpl model dry 0 rows false w0 = (Ok (rows', updated), w) →
  let run := (if updated then persist abspath dirname mkstemp_name csv_path headers rows'
              else print "No updates needed.") w in
  let dir := if String.eqb (dirname (abspath csv_path)) "" then "."
             else dirname (abspath csv_path) in
  let tmp := mkstemp_name (tables (ext w0)) ".csv" "csvtmp" dir in
  (∃ new, calls (ext w) = calls (ext w0) ++ new ∧
     (updated = true ↔ if dry then Exists needs_work rows else Exists returned new)) ∧
  (updated = true →
     ∃ j r s, rows !! j = Some r ∧ has_summary r = false ∧
              rows' !! j = Some (row_set r "summary" s)) ∧
  (rows' ≠ rows → updated = true) ∧
  tmp ≠ csv_path ∧
  ∃ events,
    fs_log (ext run.2) = fs_log (ext w0) ++ events ∧
    tables (ext run.2) = foldl fs_apply (tables (ext w0)) events ∧
    (updated = false → events = []) ∧
    (updated = true →
       head events = Some (Created dir tmp) ∧
       (∀ pre suf, events = pre ++ suf →
          foldl fs_apply (tables (ext w0)) pre !! csv_path = Some old ∨
          foldl fs_apply (tables (ext w0)) pre !! csv_path
          = Some (headers :: records_of headers rows')) ∧
       (Forall (fits headers) rows' →
          run.1 = Ok tt ∧
          events = persist_events dir tmp csv_path headers (records_of headers rows'))).
Proof using mkstemp_fresh.
  intros Hold Hloop run dir tmp.
  pose proof (process_rows_same_files chat_completion tpl model dry 0 rows false w0) as Hsame.
  rewrite Hloop in Hsame. destruct Hsame as (_ & Htab & Hlog). simpl in Htab, Hlog.
  assert (tmp ≠ csv_path) as Hne.
  { intros Heq. pose proof (mkstemp_fresh (tables (ext w0)) ".csv" "csvtmp" dir) as Hfresh.
    fold tmp in Hfresh. congruence. }
  destruct (process_rows_flag chat_completion _ _ _ _ _ _ _ _ _ _ Hloop)
    as (new & Hnew & Hflag & Hstored).
  split.
  { exists new. split; [done|]. rewrite Hflag. intuition discriminate. }
  split; [by apply Hstored|].
  split; [|split; [done|]].
  { intros Hchanged. apply process_rows_ok in Hloop as (_ & _ & Hsame).
    destruct updated; [done|]. by destruct Hchanged; apply Hsame. }
  subst run. destruct updated.
  - pose proof (persist_run abspath dirname mkstemp_name csv_path headers rows' w) as Hrun.
    cbv zeta in Hrun. rewrite Htab in Hrun.
    change (tmp_dir_of abspath dirname csv_path) with dir in Hrun. fold tmp in Hrun.
    destruct Hrun as [[Hfit Hrun]|(Hnot & e & evs & Hrun & Hevs)]; rewrite Hrun.
    + exists (persist_events dir tmp csv_path headers (records_of headers rows')).
      cbn [snd fst ext]. unfold add_line. cbn [fs_log tables].
      rewrite fs_run_fs_log, fs_run_tables, Hlog, Htab.
      split; [done|]. split; [done|]. split; [done|]. intros _.
      split; [done|]. split; [|done].
      intros pre suf Hsplit. unfold persist_events in Hsplit.
      rewrite app_assoc in Hsplit. apply split_snoc in Hsplit as [[-> ->]|(suf' & -> & Hpre)].
      * right. rewrite <- app_assoc. apply replay_persist.
      * left. rewrite (replay_writes_to_other tmp); [done| |done].
        assert (Forall (writes_to tmp)
                  ([Created dir tmp; Wrote tmp headers]
                   ++ (Wrote tmp <$> records_of headers rows'))) as Hall.
        { apply Forall_app. split; [by repeat constructor|].
          apply Forall_fmap, Forall_forall. by intros. }
        rewrite Hpre in Hall. by apply Forall_app in Hall as [? _].
    + exists (Created dir tmp :: evs).
      cbn [snd fst ext]. rewrite fs_run_fs_log, fs_run_tables, Hlog, Htab.
      split; [done|]. split; [done|]. split; [done|]. intros _.
      split; [done|]. split; [|done].
      intros pre suf Hsplit. left.
      rewrite (replay_writes_to_other tmp); [done| |done].
      assert (Forall (writes_to tmp) (Created dir tmp :: evs)) as Hall by by constructor.
      rewrite Hsplit in Hall. by apply Forall_app in Hall as [? _].
  - exists []. unfold print. munfold. cbn [snd fst ext]. unfold add_line. cbn [fs_log tables].
    rewrite app_nil_r. by repeat split.
Qed.
End WriteFacts.

(** ** The whole run *)

Section RunFacts.
Context {platform : Platform} {A : Type}.
Variable chat_completion : string → string → A → result string * A.
Variables abspath dirname : string → string.
Variable mkstemp_name : gmap string table → string → string → string → string.
Implicit Types (w : world (pstate A)).

(** A run that does not raise has found the template and a file with a
    header that has the two columns, has gone through the row loop, and has
    then either written the rows or printed that nothing changed. *)
Lemma process_csv_ok_inv csv_path prompt_path model batch_size dry w w' :
  process_csv chat_completion abspath dirname mkstemp_name
    csv_path prompt_path model batch_size dry w = (Ok tt, w') →
  ∃ tpl headers recs rows' updated w1,
    texts (ext w) !! prompt_path = Some tpl ∧
    tables (ext w) !! csv_path = Some (headers :: recs) ∧
    "article" ∈ headers ∧ "summary" ∈ headers ∧
    process_rows chat_completion tpl model dry 0 (read_rows headers recs) false w
      = (Ok (rows', updated), w1) ∧
    (if updated then persist abspath dirname mkstemp_name csv_path headers rows'
     else print "No updates needed.") w1 = (Ok tt, w').
Proof.
  unfold process_csv, load_prompt, read_csv. munfold.
  destruct (texts (ext w) !! prompt_path) as [tpl|] eqn:Htpl; [|done].
  destruct (tables (ext w) !! csv_path) as [t|] eqn:Ht; [|done].
  destruct (headers_ok (fieldnames_of t)) eqn:Hok; [|done].
  destruct t as [|headers recs]; [done|]. simpl in Hok.
  apply andb_true_iff in Hok as [Ha%bool_decide_eq_true Hs%bool_decide_eq_true].
  cbn [fieldnames_of head default tail].
  destruct (process_rows _ _ _ _ _ _ _ _) as [[[rows' updated]|e] w1] eqn:Hloop; [|done].
  intros Hrest. exists tpl, headers, recs, rows', updated, w1. done.
Qed.

(** A row step keeps every field but [summary]. *)
Lemma row_step_cell r u r' u' k :
  row_step r u r' u' → k ≠ "summary" → cell r' k = cell r k.
Proof. intros [| |s] Hk; [done..|]. by apply cell_set_ne. Qed.

(** C8.  When a run writes the dataset, the file it leaves has the header
    that was loaded, unchanged, and one record per loaded row, in the
    same order; each record has one cell per header field, in header
    order, and the cell of every field other than [summary] is the value
    the loaded row has for that field (empty when it has none). *)
Theorem written_dataset_keeps_fields csv_path prompt_path model batch_size dry w w'
    headers recs :
  tables (ext w) !! csv_path = Some (headers :: recs) →
  process_csv chat_completion abspath dirname mkstemp_name
    csv_path prompt_path model batch_size dry w = (Ok tt, w') →
  fs_log (ext w') ≠ fs_log (ext w) →
  ∃ written,
    tables (ext w') !! csv_path = Some (headers :: written) ∧
    length written = length (read_rows headers recs) ∧
    ∀ i r, read_rows headers recs !! i = Some r →
      ∃ record, written !! i = Some record ∧
        length record = length headers ∧
        ∀ j k, headers !! j = Some k → k ≠ "summary" →
          record !! j = Some (cell r k) ∧
          (∀ v, row_get r k = Some v → record !! j = Some v).
Proof.
  intros Ht Hrun Hwrote.
  apply process_csv_ok_inv in Hrun
    as (tpl & headers' & recs' & rows' & updated & w1 & _ & Ht' & _ & _ & Hloop & Hrest).
  rewrite Ht in Ht'. injection Ht' as <- <-.
  pose proof (process_rows_same_files chat_completion tpl model dry 0
                (read_rows headers recs) false w) as Hsame.
  rewrite Hloop in Hsame. destruct Hsame as (_ & Htab & Hlog). simpl in Htab, Hlog.
  apply process_rows_ok in Hloop as (Hsteps & _ & _).
  destruct updated.
  2:{ unfold print in Hrest. munfold. injection Hrest as <-.
      destruct Hwrote. simpl. done. }
  destruct (persist_run abspath dirname mkstemp_name csv_path headers rows' w1)
    as [[_ Hp]|(_ & e & evs & Hp & _)]; rewrite Hp in Hrest; [|done].
  injection Hrest as <-. exists (records_of headers rows').
  cbn [ext]. unfold add_line. cbn [tables]. rewrite fs_run_tables.
  split; [apply replay_persist|].
  split. { unfold records_of. rewrite length_fmap. symmetry. by eapply Forall2_length. }
  intros i r Hi.
  destruct (Forall2_lookup_l _ _ _ _ _ Hsteps Hi) as (r' & Hi' & u & u' & Hstep).
  exists (cell r' <$> headers). unfold records_of.
  rewrite list_lookup_fmap, Hi'. split; [done|]. split; [by rewrite length_fmap|].
  intros j k Hj Hk. rewrite list_lookup_fmap, Hj. simpl.
  rewrite (row_step_cell _ _ _ _ _ Hstep Hk). split; [done|].
  intros v Hv. unfold cell. unfold row_get in Hv.
  destruct (cells r !! k) as [[s|]|]; congruence.
Qed.
End RunFacts.

(** ** Running twice *)

Section RerunFacts.
Context {platform : Platform} {A : Type}.
Variable chat_completion : string → string → A → result string * A.
Variables abspath dirname : string → string.
Variable mkstemp_name : gmap string table → string → string → string → string.
Implicit Types (w : world (pstate A)).

Lemma process_row_more_calls tpl model dry i r updated w :
  more_calls (ext w) (ext (process_row chat_completion tpl model dry i r updated w).2).
Proof.
  apply process_row_preserves; [apply _| | |].
  - intros line s. exists []. by rewrite app_nil_r.
  - intros line s. exists []. by rewrite app_nil_r.
  - intros _ prompt model' s. apply call_openai_chat_more_calls.
Qed.

(** Rows that all have a summary are all skipped. *)
Lemma process_rows_all_skipped tpl model dry i rows updated w :
  Forall (λ r, has_summary r = true) rows →
  process_rows chat_completion tpl model dry i rows updated w = (Ok (rows, updated), w).
Proof.
  intros Hall. revert i. induction Hall as [|r rows Hr _ IH]; intros i; [done|].
  cbn [process_rows]. munfold. rewrite process_row_skip by done. by rewrite IH.
Qed.

(** When every call made by the retry loop is answered, the loop returns an
    answer, which is not blank. *)
Lemma retry_loop_answered prompt model base exceptions n i last_exc w res w' new :
  retry_loop (call_openai_chat chat_completion prompt model) base exceptions (S n) i last_exc w
    = (res, w') →
  calls (ext w') = calls (ext w) ++ new →
  Forall answered new →
  ∃ text, res = Ok text ∧ strip text ≠ "".
Proof.
  rewrite retry_loop_S.
  pose proof (call_openai_chat_more_calls chat_completion prompt model (ext w)) as Hfirst.
  unfold call_openai_chat in *.
  destruct (chat_completion prompt model (api (ext w))) as [[v|e] a1]; cbn [snd] in Hfirst.
  - intros [= <- <-]. cbn [ext calls]. intros <-%app_inv_head.
    intros [(text & [= <-] & Htext) _]%Forall_cons. eauto.
  - set (s1 := PState a1 _ _ _ _ _ _) in *.
    assert (∀ w2 : world (pstate A),
              more_calls s1 (ext w2) →
              calls (ext w2) = calls (ext w) ++ new → Forall answered new → False) as Hbad.
    { intros w2 [n2 Hn2] Hcalls Hgood. rewrite Hn2 in Hcalls. subst s1. cbn [calls] in Hcalls.
      rewrite <- app_assoc in Hcalls. apply app_inv_head in Hcalls as <-.
      by apply Forall_cons in Hgood as [(text & [=] & _) _]. }
    intros Hrun Hcalls Hgood. destruct (Hbad w') ; [|done..].
    destruct (exceptions e); [|injection Hrun as <- <-; by apply (reflexivity (R:=more_calls))].
    unfold time_sleep in Hrun. cbn [ext slept] in Hrun.
    destruct (sleep_refusal _); [injection Hrun as <- <-; by apply (reflexivity (R:=more_calls))|].
    match type of Hrun with retry_loop ?f ?b ?x ?m ?j ?l ?w0 = _ =>
      pose proof (retry_loop_preserves more_calls f b x m j l w0
                    (call_openai_chat_more_calls chat_completion prompt model)) as Hmore
    end.
    by rewrite Hrun in Hmore.
Qed.

(** When every call of an iteration is answered, the row has a summary
    afterwards. *)
Lemma process_row_summarized tpl model dry i r updated w r1 u1 w1 new :
  process_row chat_completion tpl model dry i r updated w = (Ok (r1, u1), w1) →
  calls (ext w1) = calls (ext w) ++ new →
  Forall answered new →
  has_summary r1 = true.
Proof.
  unfold process_row. destruct (has_summary r) eqn:Hs.
  { by intros [= <- <- <-]. }
  munfold. destruct (render_prompt _ _ _) as [prompt|e]; [|done].
  unfold print, log_error. munfold. cbn [ext slept fst snd].
  destruct dry.
  { intros [= <- <- <-] _ _. apply has_summary_set. vm_compute. discriminate. }
  unfold retry_backoff. change (Z.to_nat 4) with 4%nat.
  destruct (retry_loop _ _ _ _ _ _ _) as [res w2] eqn:Hretry.
  intros Hrun Hcalls Hgood.
  assert (calls (ext w1) = calls (ext w2)) as Hsame.
  { destruct res as [v|e]; cbn [ext slept fst snd] in Hrun.
    - unfold time_sleep in Hrun. cbn in Hrun. by injection Hrun as <- <- <-.
    - destruct (is_Exception e); [|done]. by injection Hrun as <- <- <-. }
  rewrite Hsame in Hcalls.
  destruct (retry_loop_answered _ _ _ _ _ _ _ _ _ _ _ Hretry Hcalls Hgood)
    as (text & -> & Htext).
  unfold time_sleep in Hrun. cbn in Hrun. injection Hrun as <- <- <-.
  by apply has_summary_set.
Qed.

Lemma process_rows_summarized tpl model dry i rows updated w rows' updated' w' new :
  process_rows chat_completion tpl model dry i rows updated w = (Ok (rows', updated'), w') →
  calls (ext w') = calls (ext w) ++ new →
  Forall answered new →
  Forall (λ r, has_summary r = true) rows'.
Proof.
  revert i updated w rows' new.
  induction rows as [|r rows IH]; intros i updated w rows' new.
  - cbn [process_rows]. munfold. intros [= <- <- <-] _ _. constructor.
  - intros (r1 & u1 & w1 & rows1 & Hrow & Hrows & ->)%process_rows_cons_ok Hcalls Hgood.
    pose proof (process_row_more_calls tpl model dry i r updated w) as [n1 Hn1].
    pose proof (process_rows_more_calls chat_completion tpl model dry (S i) rows u1 w1)
      as [n2 Hn2].
    rewrite Hrow in Hn1. rewrite Hrows in Hn2. simpl in Hn1, Hn2.
    rewrite Hn2, Hn1, <- app_assoc in Hcalls. apply app_inv_head in Hcalls as <-.
    apply Forall_app in Hgood as [Hg1 Hg2]. constructor.
    + by eapply process_row_summarized.
    + by eapply IH.
Qed.

(** A dataset whose rows all have a summary: no call, no write, one line
    printed. *)
Lemma process_csv_all_summarized csv_path prompt_path model batch_size dry w tpl headers recs :
  texts (ext w) !! prompt_path = Some tpl →
  tables (ext w) !! csv_path = Some (headers :: recs) →
  "article" ∈ headers →
  "summary" ∈ headers →
  Forall (λ r, has_summary r = true) (read_rows headers recs) →
  process_csv chat_completion abspath dirname mkstemp_name
    csv_path prompt_path model batch_size dry w
  = (Ok tt, World (add_line "No updates needed." (ext w)) (slept w)).
Proof.
  intros Htpl Ht Ha Hs Hall. unfold process_csv, load_prompt, read_csv. munfold.
  rewrite Htpl, Ht. cbn [fieldnames_of head headers_ok].
  rewrite !bool_decide_eq_true_2 by done. cbn [andb default tail].
  by rewrite process_rows_all_skipped.
Qed.

(** Reading back what was written: every record is kept, and a row that had
    a summary still has it. *)
Lemma read_rows_records_of (headers : list string) (rows : list row) :
  headers ≠ [] →
  read_rows headers (records_of headers rows)
  = (λ r, read_row headers (cell r <$> headers)) <$> rows.
Proof.
  intros Hne. induction rows as [|r rows IH]; [done|].
  unfold read_rows, records_of in *. rewrite !fmap_cons.
  rewrite filter_cons_True by (by destruct headers).
  rewrite fmap_cons. by f_equal.
Qed.

Lemma has_summary_read_back (headers : list string) (r : row) :
  "summary" ∈ headers →
  has_summary r = true →
  has_summary (read_row headers (cell r <$> headers)) = true.
Proof.
  intros Hin (text & Hget & Htext)%has_summary_spec. apply has_summary_spec.
  exists text. split; [|done]. rewrite row_get_read_row_fmap by done.
  unfold cell. unfold row_get in Hget. by destruct (cells r !! "summary") as [[?|]|]; simplify_eq.
Qed.

(** C6, amended.  After a first run that completed and in which every call
    to the service returned a text that is not blank, a second run on the
    resulting files, whatever its model and mode, makes no call and no
    write and leaves the dataset as it is: it only prints that nothing
    needs updating. *)
Theorem second_run_changes_nothing csv_path prompt_path model batch_size dry
    model2 batch_size2 dry2 w0 w1 new :
  process_csv chat_completion abspath dirname mkstemp_name
    csv_path prompt_path model batch_size dry w0 = (Ok tt, w1) →
  calls (ext w1) = calls (ext w0) ++ new →
  Forall answered new →
  process_csv chat_completion abspath dirname mkstemp_name
    csv_path prompt_path model2 batch_size2 dry2 w1
  = (Ok tt, World (add_line "No updates needed." (ext w1)) (slept w1)).
Proof.
  intros Hrun Hcalls Hgood.
  apply process_csv_ok_inv in Hrun
    as (tpl & headers & recs & rows' & updated & w & Htpl & Ht & Ha & Hs & Hloop & Hrest).
  pose proof (process_rows_same_files chat_completion tpl model dry 0
                (read_rows headers recs) false w0) as Hsame.
  rewrite Hloop in Hsame. destruct Hsame as (Htexts & Htab & _). simpl in Htexts, Htab.
  assert (headers ≠ []) as Hne by (intros ->; by apply elem_of_nil in Ha).
  destruct updated.
  - destruct (persist_run abspath dirname mkstemp_name csv_path headers rows' w)
      as [[_ Hp]|(_ & e & evs & Hp & _)]; rewrite Hp in Hrest; [|done].
    set (events := persist_events _ _ _ _ _) in Hrest.
    injection Hrest as <-.
    destruct (fs_run_frame events (ext w)) as (_ & Hc & _ & _ & Ht').
    change (calls (fs_run events (ext w)) = calls (ext w0) ++ new) in Hcalls.
    rewrite Hc in Hcalls.
    pose proof (process_rows_summarized _ _ _ _ _ _ _ _ _ _ _ Hloop Hcalls Hgood) as Hall.
    apply (process_csv_all_summarized _ _ _ _ _ _ tpl headers (records_of headers rows'));
      [| |done|done|].
    + change (texts (fs_run events (ext w)) !! prompt_path = Some tpl).
      by rewrite Ht', Htexts.
    + change (tables (fs_run events (ext w)) !! csv_path
              = Some (headers :: records_of headers rows')).
      rewrite fs_run_tables. apply replay_persist.
    + rewrite read_rows_records_of by done. apply Forall_fmap.
      eapply Forall_impl; [exact Hall|]. intros r Hr. by apply has_summary_read_back.
  - unfold print in Hrest. munfold. injection Hrest as <-.
    cbn [ext calls add_line] in Hcalls.
    pose proof (process_rows_summarized _ _ _ _ _ _ _ _ _ _ _ Hloop Hcalls Hgood) as Hall.
    apply process_rows_ok in Hloop as (_ & _ & Heq). rewrite Heq in Hall by done.
    eapply process_csv_all_summarized; [| |done|done|done].
    + cbn [ext texts add_line]. by rewrite Htexts.
    + cbn [ext tables add_line]. by rewrite Htab.
Qed.
End RerunFacts.

(** ** Runs of the model on sample datasets *)

(** Witness of C4: a dry run on one row that needs work. *)
Lemma dataset_written_atomically_iff_updated_witness :
  let rows := read_rows sample_header [["1"; "text"; ""]] in
  let rows' := [row_set (read_row sample_header ["1"; "text"; ""]) "summary" dry_run_placeholder] in
  let w0 := sample_world [sample_header; ["1"; "text"; ""]] [] in
  let w := (process_rows scripted "Summarize: {{ARTICLE}}" "gpt-3.5-turbo" true 0 rows false w0).2 in
  let run := persist id simple_dirname fresh_tmp "/data/sample.csv" sample_header rows' w in
  let dir := "/data" in
  let tmp := fresh_tmp (tables (ext w0)) ".csv" "csvtmp" dir in
  (∃ new, calls (ext w) = calls (ext w0) ++ new ∧
     (true = true ↔ Exists needs_work rows)) ∧
  (true = true →
     ∃ j r s, rows !! j = Some r ∧ has_summary r = false ∧
              rows' !! j = Some (row_set r "summary" s)) ∧
  (rows' ≠ rows → true = true) ∧
  tmp ≠ "/data/sample.csv" ∧
  ∃ events,
    fs_log (ext run.2) = fs_log (ext w0) ++ events ∧
    tables (ext run.2) = foldl fs_apply (tables (ext w0)) events ∧
    (true = false → events = []) ∧
    (true = true →
       head events = Some (Created dir tmp) ∧
       (∀ pre suf, events = pre ++ suf →
          foldl fs_apply (tables (ext w0)) pre !! "/data/sample.csv"
          = Some [sample_header; ["1"; "text"; ""]] ∨
          foldl fs_apply (tables (ext w0)) pre !! "/data/sample.csv"
          = Some (sample_header :: records_of sample_header rows')) ∧
       (Forall (fits sample_header) rows' →
          run.1 = Ok tt ∧
          events = persist_events dir tmp "/data/sample.csv" sample_header
                     (records_of sample_header rows'))).
Proof.
  apply (dataset_written_atomically_iff_updated scripted id simple_dirname fresh_tmp
           (λ fs suffix prefix dir, fresh_string_fresh fs _)
           "Summarize: {{ARTICLE}}" "gpt-3.5-turbo" true
           (read_rows sample_header [["1"; "text"; ""]])
           (sample_world [sample_header; ["1"; "text"; ""]] [])
           [row_set (read_row sample_header ["1"; "text"; ""]) "summary" dry_run_placeholder]
           true
           (process_rows scripted "Summarize: {{ARTICLE}}" "gpt-3.5-turbo" true 0
              (read_rows sample_header [["1"; "text"; ""]]) false
              (sample_world [sample_header; ["1"; "text"; ""]] [])).2
           "/data/sample.csv" sample_header [sample_header; ["1"; "text"; ""]]).
  - vm_compute. reflexivity.
  - vm_compute. reflexivity.
Defined.

(** C4 as stated fails when the service answers with the empty text for a
    row whose summary is empty: the loop returns the rows it was given, no
    row has changed, and yet the flag is set and the file is rewritten. *)
Lemma unchanged_rows_rewritten_counterexample :
  let rows := read_rows sample_header [["1"; "text"; ""]] in
  let w0 := sample_world [sample_header; ["1"; "text"; ""]] [Ok ""] in
  let run := process_csv scripted id simple_dirname fresh_tmp
               "/data/sample.csv" "prompts/summarize.txt" "gpt-3.5-turbo" 5 false w0 in
  (process_rows scripted "Summarize: {{ARTICLE}}" "gpt-3.5-turbo" false 0 rows false w0).1
  = Ok (rows, true) ∧
  run.1 = Ok tt ∧
  fs_log (ext run.2)
  = [Created "/data" "/data/csvtmp.csv";
     Wrote "/data/csvtmp.csv" sample_header;
     Wrote "/data/csvtmp.csv" ["1"; "text"; ""];
     Replaced "/data/csvtmp.csv" "/data/sample.csv"].
Proof. vm_compute. done. Qed.

(** Witness of C6: a first run in which both calls are answered. *)
Lemma second_run_changes_nothing_witness :
  let w0 := sample_world [sample_header; ["1"; "first"; ""]; ["2"; "second"; "done"];
                          ["3"; "third"; " "]] [Ok "S1"; Ok "S3"] in
  let w1 := (process_csv scripted id simple_dirname fresh_tmp
               "/data/sample.csv" "prompts/summarize.txt" "gpt-3.5-turbo" 5 false w0).2 in
  process_csv scripted id simple_dirname fresh_tmp
    "/data/sample.csv" "prompts/summarize.txt" "gpt-4" 1 true w1
  = (Ok tt, World (add_line "No updates needed." (ext w1)) (slept w1)).
Proof.
  apply (second_run_changes_nothing scripted id simple_dirname fresh_tmp
           "/data/sample.csv" "prompts/summarize.txt" "gpt-3.5-turbo" 5 false "gpt-4" 1 true
           (sample_world [sample_header; ["1"; "first"; ""]; ["2"; "second"; "done"];
                          ["3"; "third"; " "]] [Ok "S1"; Ok "S3"])
           _
           [CallRecord "Summarize: first" "gpt-3.5-turbo" (Ok "S1");
            CallRecord "Summarize: third" "gpt-3.5-turbo" (Ok "S3")]).
  - vm_compute. reflexivity.
  - vm_compute. reflexivity.
  - repeat constructor; eexists; (split; [reflexivity|vm_compute; discriminate]).
Defined.

(** C6 as stated fails when an answer is blank: no call of the first run
    failed, but the row is still without a summary, so the second run calls
    the service again and writes the file again. *)
Lemma blank_answer_rerun_counterexample :
  let w0 := sample_world [sample_header; ["1"; "text"; ""]] [Ok ""; Ok "S"] in
  let run1 := process_csv scripted id simple_dirname fresh_tmp
                "/data/sample.csv" "prompts/summarize.txt" "gpt-3.5-turbo" 5 false w0 in
  let run2 := process_csv scripted id simple_dirname fresh_tmp
                "/data/sample.csv" "prompts/summarize.txt" "gpt-3.5-turbo" 5 false run1.2 in
  run1.1 = Ok tt ∧
  calls (ext run1.2) = [CallRecord "Summarize: text" "gpt-3.5-turbo" (Ok "")] ∧
  errors_log (ext run1.2) = [] ∧
  run2.1 = Ok tt ∧
  calls (ext run2.2)
  = calls (ext run1.2) ++ [CallRecord "Summarize: text" "gpt-3.5-turbo" (Ok "S")] ∧
  fs_log (ext run2.2)
  = fs_log (ext run1.2)
    ++ [Created "/data" "/data/csvtmp.csv";
        Wrote "/data/csvtmp.csv" sample_header;
        Wrote "/data/csvtmp.csv" ["1"; "text"; "S"];
        Replaced "/data/csvtmp.csv" "/data/sample.csv"] ∧
  tables (ext run2.2) !! "/data/sample.csv" ≠ tables (ext run1.2) !! "/data/sample.csv".
Proof. vm_compute. by repeat split. Qed.

(** Witness of C8: the dry run of the three-row scenario, with one column
    more than the required three. *)
Lemma written_dataset_keeps_fields_witness :
  let headers := ["id"; "lang"; "article"; "summary"] in
  let recs := [["1"; "en"; "first"; ""]; ["2"; "fr"; "second"; "done"]; ["3"; "de"; "third"; " "]] in
  let w := sample_world (headers :: recs) [] in
  let w' := (process_csv scripted id simple_dirname fresh_tmp
               "/data/sample.csv" "prompts/summarize.txt" "gpt-3.5-turbo" 5 true w).2 in
  ∃ written,
    tables (ext w') !! "/data/sample.csv" = Some (headers :: written) ∧
    length written = length (read_rows headers recs) ∧
    ∀ i r, read_rows headers recs !! i = Some r →
      ∃ record, written !! i = Some record ∧
        length record = length headers ∧
        ∀ j k, headers !! j = Some k → k ≠ "summary" →
          record !! j = Some (cell r k) ∧
          (∀ v, row_get r k = Some v → record !! j = Some v).
Proof.
  apply (written_dataset_keeps_fields scripted id simple_dirname fresh_tmp
           "/data/sample.csv" "prompts/summarize.txt" "gpt-3.5-turbo" 5 true
           (sample_world (["id"; "lang"; "article"; "summary"]
                          :: [["1"; "en"; "first"; ""]; ["2"; "fr"; "second"; "done"];
                              ["3"; "de"; "third"; " "]]) [])).
  - vm_compute. reflexivity.
  - vm_compute. reflexivity.
  - vm_compute. discriminate.
Defined.

(** The dry-run scenario of the specification: three rows, the second
    already summarized.  Previews are printed for rows 1 and 3 only, no call
    is made, and the file is rewritten with the placeholder in rows 1 and 3
    and the old summary in row 2. *)
Example dry_run_scenario :
  let w0 := sample_world [sample_header; ["1"; "first"; ""]; ["2"; "second"; "done"];
                          ["3"; "third"; ""]] [] in
  let run := process_csv scripted id simple_dirname fresh_tmp
               "/data/sample.csv" "prompts/summarize.txt" "gpt-3.5-turbo" 5 true w0 in
  run.1 = Ok tt ∧
  calls (ext run.2) = [] ∧
  stdout (ext run.2)
  = ["Processing id=1 (index=0)"; "--- prompt preview ---"; "Summarize: first";
     "--- end preview ---";
     "Processing id=3 (index=2)"; "--- prompt preview ---"; "Summarize: third";
     "--- end preview ---";
     "Wrote updates to /data/sample.csv"] ∧
  tables (ext run.2) !! "/data/sample.csv"
  = Some [sample_header; ["1"; "first"; dry_run_placeholder]; ["2"; "second"; "done"];
          ["3"; "third"; dry_run_placeholder]].
Proof. vm_compute. done. Qed.

(** * Further properties of the retry executor *)

Section RetryMore.
Context {platform : Platform} {St V : Type}.
Implicit Types (func : operation (St:=St) (V:=V)) (exceptions : exn → bool).



Lemma retry_loop_invocations func base exceptions n i last_exc s (count : nat) l :
  let w' := (retry_loop (counting func) base exceptions n i last_exc (World (s, count) l)).2 in
  count ≤ (ext w').2 ≤ count + n.
Proof.
  revert i last_exc s count l. induction n as [|n IH]; intros i last_exc s count l.
  - cbv zeta. destruct last_exc; cbn; lia.
  - cbv zeta. rewrite retry_loop_S. cbn [ext slept].
    assert (counting func (s, count) = (let '(r, s') := func s in (r, (s', S count))))
      as Hc by done.
    destruct (func s) as [[v|e] s1]; rewrite Hc; cbn [ext snd]; [lia|].
    destruct (exceptions e); cbn [ext snd]; [|lia].
    unfold time_sleep. cbn [ext slept].
    destruct (sleep_refusal _); cbn [ext snd]; [lia|].
    specialize (IH (i + 1)%Z (Some e) s1 (S count) (l ++ [inject_Z (base * 2 ^ i)])).
    cbv zeta in IH. lia.
Qed.

(** X2.  Whatever the operation does, [retry_backoff] invokes it at most
    [max_retries] times (not at all when [max_retries] is not positive). *)
Theorem retry_backoff_invocation_bound func exceptions (max_retries base : Z)
    (s : St) (count : nat) (l : list Q) :
  let w' := (retry_backoff (counting func) max_retries base exceptions
               (World (s, count) l)).2 in
  count ≤ (ext w').2 ≤ count + Z.to_nat max_retries.
Proof. apply retry_loop_invocations. Qed.

Lemma retry_loop_sleeps func base exceptions n i last_exc (w : world St) :
  ∃ j, j ≤ n ∧
    slept (retry_loop func base exceptions n i last_exc w).2
    = slept w ++ (inject_Z <$> backoff_delays base i j).
Proof.
  revert i last_exc w. induction n as [|n IH]; intros i last_exc w.
  - exists 0%nat. split; [done|]. simpl. rewrite app_nil_r. by destruct last_exc.
  - rewrite retry_loop_S.
    destruct (func (ext w)) as [[v|e] s1].
    { exists 0%nat. split; [lia|]. simpl. by rewrite app_nil_r. }
    destruct (exceptions e).
    2:{ exists 0%nat. split; [lia|]. simpl. by rewrite app_nil_r. }
    unfold time_sleep. cbn [ext slept].
    destruct (sleep_refusal _).
    { exists 0%nat. split; [lia|]. simpl. by rewrite app_nil_r. }
    destruct (IH (i + 1)%Z (Some e) (World s1 (slept w ++ [inject_Z (base * 2 ^ i)])))
      as (j & Hj & Hslept).
    exists (S j). split; [lia|]. rewrite Hslept. cbn [slept].
    rewrite backoff_delays_S, fmap_cons, <- app_assoc. done.
Qed.

Lemma backoff_total_mono (base : Z) (j n : nat) :
  (0 ≤ base)%Z → j ≤ n →
  (sumZ (backoff_delays base 0 j) ≤ sumZ (backoff_delays base 0 n))%Z.
Proof.
  intros Hb Hjn. rewrite !sumZ_backoff_delays.
  apply Z.mul_le_mono_nonneg_l; [done|].
  assert (2 ^ Z.of_nat j ≤ 2 ^ Z.of_nat n)%Z; [|lia].
  apply Z.pow_le_mono_r; lia.
Qed.

(** X3.  Whatever the operation does, the sleeps of one call of
    [retry_backoff] are the first [j] delays [base*2^0, base*2^1, ...] for
    some [j <= max_retries], in this order; with a base that is not negative
    their sum is at most [base * (2^max_retries - 1)]. *)
Theorem retry_backoff_sleep_bound func exceptions (max_retries base : Z) (w : world St) :
  ∃ j, j ≤ Z.to_nat max_retries ∧
    slept (retry_backoff func max_retries base exceptions w).2
    = slept w ++ (inject_Z <$> backoff_delays base 0 j) ∧
    ((0 ≤ base)%Z →
     sumQ (inject_Z <$> backoff_delays base 0 j)
     <= inject_Z (base * (2 ^ Z.of_nat (Z.to_nat max_retries) - 1)))%Q.
Proof.
  destruct (retry_loop_sleeps func base exceptions (Z.to_nat max_retries) 0 None w)
    as (j & Hj & Hslept).
  exists j. split; [done|]. split; [done|].
  intros Hb. rewrite sumQ_inject_Z, <- Zle_Qle, <- sumZ_backoff_delays.
  by apply backoff_total_mono.
Qed.



End RetryMore.




(** * Further properties of prompt rendering *)

Lemma string_app_nil_r (s : string) : s +:+ "" = s.
Proof. induction s as [|c s IH]; [done|]. change (String c (s +:+ "") = String c s). by rewrite IH. Qed.

Lemma string_app_assoc (s1 s2 s3 : string) : (s1 +:+ s2) +:+ s3 = s1 +:+ s2 +:+ s3.
Proof.
  induction s1 as [|c s1 IH]; [done|].
  change (String c ((s1 +:+ s2) +:+ s3) = String c (s1 +:+ s2 +:+ s3)). by rewrite IH.
Qed.

Lemma prefix_app (t q : string) : String.prefix t (t +:+ q) = true.
Proof.
  induction t as [|c t IH]; [by destruct q|].
  change (String.prefix (String c t) (String c (t +:+ q)) = true).
  cbn [String.prefix]. by destruct (ascii_dec c c).
Qed.

Lemma prefix_empty (s : string) : String.prefix "" s = true.
Proof. by destruct s. Qed.

(** After a match the characters of the match are passed over. *)
Lemma replace_go_skip (old new t q : string) :
  replace_go old new (String.length t) (t +:+ q) = replace_go old new 0 q.
Proof.
  induction t as [|c t IH]; [done|].
  change (replace_go old new (S (String.length t)) (String c (t +:+ q))
          = replace_go old new 0 q).
  cbn [replace_go]. exact IH.
Qed.

Lemma replace_go_match (c : ascii) (old' new q : string) :
  replace_go (String c old') new 0 (String c old' +:+ q)
  = new +:+ replace_go (String c old') new 0 q.
Proof.
  change (String c old' +:+ q) with (String c (old' +:+ q)).
  cbn [replace_go].
  change (String c (old' +:+ q)) with (String c old' +:+ q).
  rewrite prefix_app. cbn [String.length]. rewrite Nat.sub_1_r. cbn [Nat.pred].
  by rewrite replace_go_skip.
Qed.

(** Text in which the first character of [old] does not occur is copied. *)
Lemma replace_go_no_char (c : ascii) (old' new p s : string) :
  has_char c p = false →
  replace_go (String c old') new 0 (p +:+ s)
  = p +:+ replace_go (String c old') new 0 s.
Proof.
  induction p as [|d p IH]; [done|]. cbn [has_char].
  intros [Hcd Hp]%orb_false_iff.
  change (String d p +:+ s) with (String d (p +:+ s)).
  change (String d p +:+ replace_go (String c old') new 0 s)
    with (String d (p +:+ replace_go (String c old') new 0 s)).
  cbn [replace_go String.prefix].
  destruct (ascii_dec c d) as [->|_]; [by rewrite Ascii.eqb_refl in Hcd|].
  by rewrite IH.
Qed.

Lemma replace_go_absent (old new s : string) :
  occurs old s = false → replace_go old new 0 s = s.
Proof.
  induction s as [|c s IH]; [done|]. cbn [occurs replace_go].
  intros [-> Hs]%orb_false_iff. by rewrite IH.
Qed.

Lemma str_replace_absent (old new s : string) :
  occurs old s = false → str_replace old new s = s.
Proof.
  intros Hocc. unfold str_replace. destruct (String.eqb_spec old "") as [->|_].
  - destruct s; discriminate.
  - by apply replace_go_absent.
Qed.

(** X6.  A template in which neither [{{ARTICLE}}] nor the placeholder of any
    extra occurs is returned as it is, whatever the article and the values
    of the extras. *)
Theorem render_prompt_without_placeholder (template article : string)
    (extras : list (string * string)) :
  occurs "{{ARTICLE}}" template = false →
  Forall (λ kv, occurs ("{{" +:+ kv.1 +:+ "}}") template = false) extras →
  render_prompt template (Some article) extras = Ok template.
Proof.
  intros Hart Hextras. unfold render_prompt. f_equal.
  rewrite str_replace_absent by done.
  induction Hextras as [|kv extras Hkv _ IH]; [done|].
  cbn [foldl]. by rewrite str_replace_absent.
Qed.

(** X7.  A template with one occurrence of [{{ARTICLE}}], after a text
    without braces: the article takes the place of the placeholder and is
    copied as it is, even when it contains [{{ARTICLE}}] itself. *)
Theorem render_prompt_single_placeholder (p q article : string) :
  has_char "{" p = false →
  occurs "{{ARTICLE}}" q = false →
  render_prompt (p +:+ "{{ARTICLE}}" +:+ q) (Some article) [] = Ok (p +:+ article +:+ q).
Proof.
  intros Hp Hq. unfold render_prompt. cbn [foldl]. f_equal.
  unfold str_replace. cbn [String.eqb].
  rewrite (replace_go_no_char "{" "{ARTICLE}}" article p ("{{ARTICLE}}" +:+ q) Hp).
  rewrite (replace_go_match "{" "{ARTICLE}}" article q).
  by rewrite replace_go_absent.
Qed.

(** X8.  The extras are substituted after the article, in the text that
    already contains it: a placeholder [{{k}}] written in the article is
    replaced by the value of the extra [k]. *)
Theorem render_prompt_extras_expand_article (p k v : string) :
  has_char "{" p = false →
  render_prompt (p +:+ "{{ARTICLE}}") (Some ("{{" +:+ k +:+ "}}")) [(k, v)] = Ok (p +:+ v).
Proof.
  intros Hp. unfold render_prompt. cbn [foldl fst snd]. f_equal.
  set (ph := "{{" +:+ k +:+ "}}").
  assert (str_replace "{{ARTICLE}}" ph (p +:+ "{{ARTICLE}}") = p +:+ ph) as ->.
  { unfold str_replace. cbn [String.eqb].
    rewrite (replace_go_no_char "{" "{ARTICLE}}" ph p "{{ARTICLE}}" Hp).
    pose proof (replace_go_match "{" "{ARTICLE}}" ph "") as Hm.
    rewrite (string_app_nil_r "{{ARTICLE}}") in Hm. rewrite Hm.
    cbn [replace_go]. by rewrite string_app_nil_r. }
  unfold str_replace. change (String.eqb ph "") with false. cbv iota.
  change ph with (String "{" ("{" +:+ k +:+ "}}")).
  rewrite (replace_go_no_char "{" ("{" +:+ k +:+ "}}") v p _ Hp).
  pose proof (replace_go_match "{" ("{" +:+ k +:+ "}}") v "") as Hm.
  rewrite string_app_nil_r in Hm. rewrite Hm.
  cbn [replace_go]. by rewrite string_app_nil_r.
Qed.

(** Witness of X6. *)
Lemma render_prompt_without_placeholder_witness :
  render_prompt "Summarize the news." (Some "text") [("LANG", "en")]
  = Ok "Summarize the news.".
Proof.
  apply (render_prompt_without_placeholder "Summarize the news." "text" [("LANG", "en")]).
  - vm_compute. reflexivity.
  - repeat constructor.
Defined.

(** Witness of X7: the article contains the placeholder. *)
Lemma render_prompt_single_placeholder_witness :
  render_prompt ("Summarize: " +:+ "{{ARTICLE}}" +:+ " Thanks.") (Some "about {{ARTICLE}}") []
  = Ok ("Summarize: " +:+ "about {{ARTICLE}}" +:+ " Thanks.").
Proof.
  apply (render_prompt_single_placeholder "Summarize: " " Thanks." "about {{ARTICLE}}").
  - vm_compute. reflexivity.
  - vm_compute. reflexivity.
Defined.

(** Witness of X8. *)
Lemma render_prompt_extras_expand_article_witness :
  render_prompt ("Summarize: " +:+ "{{ARTICLE}}") (Some ("{{" +:+ "TONE" +:+ "}}"))
    [("TONE", "formal")]
  = Ok ("Summarize: " +:+ "formal").
Proof.
  apply (render_prompt_extras_expand_article "Summarize: " "TONE" "formal").
  vm_compute. reflexivity.
Defined.

(** * Further properties of the row loop *)







Section LoopMore.
Context {platform : Platform} {A : Type}.
Variable chat_completion : string → string → A → result string * A.
Variables abspath dirname : string → string.
Variable mkstemp_name : gmap string table → string → string → string → string.
Implicit Types (w : world (pstate A)) (s : pstate A).

Lemma add_lines_nil s : add_lines [] s = s.
Proof. destruct s. unfold add_lines. simpl. by rewrite app_nil_r. Qed.

Lemma add_lines_app (l1 l2 : list string) s :
  add_lines l2 (add_lines l1 s) = add_lines (l1 ++ l2) s.
Proof. unfold add_lines. simpl. by rewrite app_assoc. Qed.

Lemma add_line_add_lines (line : string) s : add_line line s = add_lines [line] s.
Proof. done. Qed.

(** In a dry run an iteration only prints. *)
Lemma process_row_dry_run_world tpl model i r updated w :
  ∃ lines, (process_row chat_completion tpl model true i r updated w).2
           = World (add_lines lines (ext w)) (slept w).
Proof.
  destruct (has_summary r) eqn:Hs.
  - exists []. rewrite process_row_skip by done. rewrite add_lines_nil. by destruct w.
  - pose proof (dry_run_row chat_completion tpl model i r updated w Hs) as Hrow.
    destruct (row_get_default r "article" "") as [article|]; rewrite Hrow.
    + eexists. cbn [snd]. rewrite !add_line_add_lines, !add_lines_app. done.
    + exists []. rewrite add_lines_nil. by destruct w.
Qed.

Lemma process_rows_dry_run_world tpl model i rows updated w :
  ∃ lines, (process_rows chat_completion tpl model true i rows updated w).2
           = World (add_lines lines (ext w)) (slept w).
Proof.
  revert i updated w. induction rows as [|r rows IH]; intros i updated w.
  - exists []. rewrite add_lines_nil. by destruct w.
  - cbn [process_rows]. munfold.
    destruct (process_row_dry_run_world tpl model i r updated w) as (l1 & H1).
    destruct (process_row _ _ _ _ _ _ _ _) as [[[r1 u1]|e] w1]; cbn [snd] in H1; subst w1.
    2:{ by exists l1. }
    destruct (IH (S i) u1 (World (add_lines l1 (ext w)) (slept w))) as (l2 & H2).
    destruct (process_rows _ _ _ _ _ _ _ _) as [[[rows1 u2]|e] w2]; cbn [snd ext slept] in H2;
      subst w2; exists (l1 ++ l2); by rewrite add_lines_app.
Qed.

(** X10.  A dry run, whatever its outcome, makes no call to the service,
    sleeps at no point, appends nothing to the error log and leaves the
    service and the text files as they were. *)
Theorem dry_run_is_quiet csv_path prompt_path model batch_size w :
  let w' := (process_csv chat_completion abspath dirname mkstemp_name
               csv_path prompt_path model batch_size true w).2 in
  api (ext w') = api (ext w) ∧
  calls (ext w') = calls (ext w) ∧
  errors_log (ext w') = errors_log (ext w) ∧
  texts (ext w') = texts (ext w) ∧
  slept w' = slept w.
Proof.
  cbv zeta. unfold process_csv, load_prompt, read_csv. munfold.
  destruct (texts (ext w) !! prompt_path) as [tpl|]; [|done].
  destruct (tables (ext w) !! csv_path) as [t|]; [|done].
  destruct (headers_ok (fieldnames_of t)); [|done].
  destruct (process_rows_dry_run_world tpl model 0
              (read_rows (default [] (fieldnames_of t)) (tail t)) false w) as (lines & Hloop).
  destruct (process_rows _ _ _ _ _ _ _ _) as [[[rows' updated]|e] w1]; cbn [snd] in Hloop;
    subst w1; [|done].
  destruct updated; [|done].
  destruct (persist_run abspath dirname mkstemp_name csv_path
              (default [] (fieldnames_of t)) rows'
              (World (add_lines lines (ext w)) (slept w)))
    as [[_ Hp]|(_ & e & evs & Hp & _)]; rewrite Hp; cbn [snd ext slept].
  - match goal with |- context [fs_run ?evs ?s] =>
      destruct (fs_run_frame evs s) as (Ha & Hc & _ & He & Ht) end.
    unfold add_line. cbn [api calls errors_log texts]. by rewrite Ha, Hc, He, Ht.
  - match goal with |- context [fs_run ?evs ?s] =>
      destruct (fs_run_frame evs s) as (Ha & Hc & _ & He & Ht) end.
    by rewrite Ha, Hc, He, Ht.
Qed.
End LoopMore.

Section RowMore.
Context {platform : Platform} {A : Type}.
Variable chat_completion : string → string → A → result string * A.
Implicit Types (w : world (pstate A)) (s : pstate A).

Lemma call_openai_chat_answer prompt model (s : pstate A) v a :
  chat_completion prompt model (api s) = (Ok v, a) →
  call_openai_chat chat_completion prompt model s
  = (Ok v, PState a (calls s ++ [CallRecord prompt model (Ok v)]) (stdout s)
             (errors_log s) (texts s) (tables s) (fs_log s)).
Proof. intros H. unfold call_openai_chat. by rewrite H. Qed.

(** X11.  A row that needs work, in a run that is not dry: when the service
    fails [k <= 3] times and then answers, the answer is stored in
    [summary] and the flag is raised; every attempt is recorded, the
    backoff delays 1, 2, 4, ... of the [k] failures are followed by the
    pacing delay, one progress line is printed and nothing is logged as an
    error. *)
Theorem process_row_answer_after_retries tpl model i r updated w prompt k es a1 v a2 :
  has_summary r = false →
  render_prompt tpl (row_get_default r "article" "") [] = Ok prompt →
  fails (chat_completion prompt model) is_Exception k (api (ext w)) es a1 →
  chat_completion prompt model a1 = (Ok v, a2) →
  k ≤ 3 →
  process_row chat_completion tpl model false i r updated w
  = (Ok (row_set r "summary" v, true),
     World (PState a2
              (calls (ext w) ++ (CallRecord prompt model ∘ Raise <$> es)
               ++ [CallRecord prompt model (Ok v)])
              (stdout (ext w) ++ [processing_line r i])
              (errors_log (ext w)) (texts (ext w)) (tables (ext w)) (fs_log (ext w)))
           (slept w ++ (inject_Z <$> backoff_delays 1 0 k) ++ [pacing_delay])).
Proof.
  intros Hs Hrender Hf Hanswer Hk.
  pose (s1 := add_line (processing_line r i) (ext w)).
  pose proof (call_openai_chat_fails chat_completion prompt model _ _ _ _ _ s1 Hf eq_refl)
    as Hf1.
  unfold process_row. rewrite Hs, Hrender. munfold. unfold print. munfold.
  cbn [ext slept fst snd]. fold s1. unfold retry_backoff.
  change (Z.to_nat 4) with 4%nat.
  replace 4%nat with (k + S (3 - k))%nat by lia.
  rewrite (retry_loop_fails _ 1%Z _ _ _ _ _ _ _ _ _ Hf1
             (row_delays_performed k ltac:(lia))).
  erewrite retry_loop_success; [|by apply call_openai_chat_answer].
  change pacing_delay with (3 # 10). rewrite time_sleep_pacing.
  cbn. subst s1. unfold add_line. cbn.
  by rewrite <- !app_assoc.
Qed.
End RowMore.

(** Witness of X11: one failure, then the answer. *)
Lemma process_row_answer_after_retries_witness :
  process_row scripted "Summarize: {{ARTICLE}}" "gpt-3.5-turbo" false 0
    (read_row sample_header ["7"; "text"; ""]) false
    (sample_world [] [Raise (Exception "RuntimeError" "busy"); Ok "short"])
  = (Ok (row_set (read_row sample_header ["7"; "text"; ""]) "summary" "short", true),
     World (PState []
              (calls (ext (sample_world [] [Raise (Exception "RuntimeError" "busy"); Ok "short"]))
               ++ (CallRecord "Summarize: text" "gpt-3.5-turbo" ∘ Raise
                   <$> [Exception "RuntimeError" "busy"])
               ++ [CallRecord "Summarize: text" "gpt-3.5-turbo" (Ok "short")])
              (stdout (ext (sample_world [] [Raise (Exception "RuntimeError" "busy"); Ok "short"]))
               ++ [processing_line (read_row sample_header ["7"; "text"; ""]) 0])
              (errors_log (ext (sample_world [] [])))
              (texts (ext (sample_world [] [])))
              (tables (ext (sample_world [] [])))
              (fs_log (ext (sample_world [] []))))
           (slept (sample_world [] [Raise (Exception "RuntimeError" "busy"); Ok "short"])
            ++ (inject_Z <$> backoff_delays 1 0 1) ++ [pacing_delay])).
Proof.
  apply (process_row_answer_after_retries scripted "Summarize: {{ARTICLE}}" "gpt-3.5-turbo" 0
           (read_row sample_header ["7"; "text"; ""]) false
           (sample_world [] [Raise (Exception "RuntimeError" "busy"); Ok "short"])
           "Summarize: text" 1 [Exception "RuntimeError" "busy"] [Ok "short"] "short" []).
  - vm_compute. reflexivity.
  - vm_compute. reflexivity.
  - repeat econstructor.
  - reflexivity.
  - lia.
Defined.

#[local] Instance same_errors_preorder {A} : PreOrder (@same_errors A).
Proof. split; unfold same_errors; [by intros s|intros s1 s2 s3; congruence]. Qed.

Section BudgetFacts.
Context {platform : Platform} {A : Type}.
Variable chat_completion : string → string → A → result string * A.
Variables abspath dirname : string → string.
Variable mkstemp_name : gmap string table → string → string → string → string.
Implicit Types (w : world (pstate A)) (s : pstate A).

Lemma call_openai_chat_same_errors prompt model s :
  same_errors s (call_openai_chat chat_completion prompt model s).2.
Proof. unfold call_openai_chat. by destruct (chat_completion _ _ _). Qed.

Lemma call_openai_chat_one_call prompt model s :
  length (calls (call_openai_chat chat_completion prompt model s).2) = S (length (calls s)).
Proof.
  unfold call_openai_chat. destruct (chat_completion _ _ _). simpl.
  rewrite length_app. simpl. lia.
Qed.

Lemma retry_loop_call_bound prompt model base exceptions n i last_exc w :
  length (calls (ext (retry_loop (call_openai_chat chat_completion prompt model)
                        base exceptions n i last_exc w).2))
  ≤ length (calls (ext w)) + n.
Proof.
  revert i last_exc w. induction n as [|n IH]; intros i last_exc w.
  - simpl. destruct last_exc; simpl; lia.
  - rewrite retry_loop_S.
    pose proof (call_openai_chat_one_call prompt model (ext w)) as Hone.
    destruct (call_openai_chat _ _ _ _) as [[v|e] s1]; cbn [snd ext] in *; [lia|].
    destruct (exceptions e); cbn [snd ext]; [|lia].
    unfold time_sleep. cbn [ext slept].
    destruct (sleep_refusal _); cbn [snd ext]; [lia|].
    etrans; [apply IH|]. cbn [ext]. lia.
Qed.

Lemma process_row_within_budget tpl model dry i r updated w :
  within_budget 4 r (ext w)
    (ext (process_row chat_completion tpl model dry i r updated w).2).
Proof.
  assert (∀ s : pstate A, within_budget 4 r s s) as Hrefl.
  { intros s. split; [lia|]. exists []. rewrite app_nil_r. split; [done|].
    split; [simpl; lia|constructor]. }
  unfold process_row. destruct (has_summary r) eqn:Hs.
  { apply Hrefl. }
  munfold. destruct (render_prompt _ _ _) as [prompt|e].
  2:{ apply Hrefl. }
  unfold print, log_error. munfold. cbn [ext slept fst snd].
  destruct dry.
  { exact (Hrefl (ext w)). }
  unfold retry_backoff.
  pose proof (retry_loop_call_bound prompt model 1 is_Exception (Z.to_nat 4) 0 None
                (World (add_line (processing_line r i) (ext w)) (slept w))) as Hcalls.
  pose proof (retry_loop_preserves same_errors
                (call_openai_chat chat_completion prompt model) 1 is_Exception
                (Z.to_nat 4) 0 None
                (World (add_line (processing_line r i) (ext w)) (slept w))
                (call_openai_chat_same_errors prompt model)) as Herr.
  unfold same_errors in Herr.
  destruct (retry_loop _ _ _ _ _ _ _) as [[summary|e] w1]; cbn [ext slept fst snd] in *.
  - change pacing_delay with (3 # 10). rewrite time_sleep_pacing.
    cbn. unfold within_budget. rewrite Hs. split; [done|].
    exists []. rewrite app_nil_r. split; [done|]. split; [simpl; lia|constructor].
  - destruct (is_Exception e); cbn [ext snd]; unfold within_budget; rewrite Hs.
    + split; [done|]. exists [ErrorRecord (row_get r "id") (exn_str e)]. cbn.
      rewrite Herr. split; [done|]. split; [lia|]. by repeat constructor.
    + split; [done|]. exists []. rewrite app_nil_r. split; [done|].
      split; [simpl; lia|constructor].
Qed.

Lemma count_needs_work_cons (r : row) (rows : list row) :
  count_needs_work (r :: rows)
  = (if has_summary r then 0 else 1) + count_needs_work rows.
Proof.
  unfold count_needs_work. destruct (has_summary r) eqn:Hs.
  - rewrite filter_cons_False; [done|]. unfold needs_work. congruence.
  - by rewrite filter_cons_True.
Qed.

(** Over the loop the budgets of the rows add up. *)
Lemma process_rows_within_budget tpl model dry i rows updated w :
  let s' := ext (process_rows chat_completion tpl model dry i rows updated w).2 in
  length (calls s') ≤ length (calls (ext w)) + 4 * count_needs_work rows ∧
  ∃ new, errors_log s' = errors_log (ext w) ++ new ∧
         length new ≤ count_needs_work rows ∧
         Forall (λ line, ∃ r, r ∈ rows ∧ needs_work r ∧ err_id line = row_get r "id") new.
Proof.
  revert i updated w. induction rows as [|r rows IH]; intros i updated w.
  - cbn. split; [lia|]. exists []. by rewrite app_nil_r.
  - cbv zeta. rewrite count_needs_work_cons. cbn [process_rows]. munfold.
    pose proof (process_row_within_budget tpl model dry i r updated w)
      as (Hc1 & n1 & He1 & Hl1 & Hid1).
    assert (Forall (λ line, ∃ r0, r0 ∈ r :: rows ∧ needs_work r0
                            ∧ err_id line = row_get r0 "id") n1) as Hid1'.
    { destruct (has_summary r) eqn:Hs.
      - destruct n1; [constructor|simpl in Hl1; lia].
      - eapply Forall_impl; [exact Hid1|]. intros line Hline. exists r.
        split; [apply list_elem_of_here|]. by split. }
    assert ((if has_summary r then 0 else 4) = 4 * (if has_summary r then 0 else 1)) as Hfour
      by (by destruct (has_summary r)).
    rewrite Hfour in Hc1. clear Hfour Hid1.
    set (c := if has_summary r then 0 else 1) in *. clearbody c.
    destruct (process_row _ _ _ _ _ _ _ _) as [[[r1 u1]|e] w1]; cbn [snd ext] in *.
    2:{ split; [lia|]. exists n1. split; [done|]. split; [lia|done]. }
    specialize (IH (S i) u1 w1). cbv zeta in IH.
    destruct IH as (Hc2 & n2 & He2 & Hl2 & Hid2).
    assert (Forall (λ line, ∃ r0, r0 ∈ r :: rows ∧ needs_work r0
                            ∧ err_id line = row_get r0 "id") n2) as Hid2'.
    { eapply Forall_impl; [exact Hid2|]. intros line (r0 & Hin & Hrest). exists r0.
      split; [by apply list_elem_of_further|done]. }
    destruct (process_rows _ _ _ _ _ _ _ _) as [[[rows1 u2]|e] w2]; cbn [snd ext] in *.
    + split; [lia|]. exists (n1 ++ n2). rewrite He2, He1, <- app_assoc.
      split; [done|]. rewrite length_app. split; [lia|]. by apply Forall_app.
    + split; [lia|]. exists (n1 ++ n2). rewrite He2, He1, <- app_assoc.
      split; [done|]. rewrite length_app. split; [lia|]. by apply Forall_app.
Qed.

(** X12.  A run makes at most four calls to the service for each loaded row
    that needs work, and none for the others, whatever the service answers
    and however the run ends. *)
Theorem process_csv_call_bound csv_path prompt_path model batch_size dry w headers recs :
  tables (ext w) !! csv_path = Some (headers :: recs) →
  length (calls (ext (process_csv chat_completion abspath dirname mkstemp_name
                        csv_path prompt_path model batch_size dry w).2))
  ≤ length (calls (ext w)) + 4 * count_needs_work (read_rows headers recs).
Proof.
  intros Ht. unfold process_csv, load_prompt, read_csv. munfold.
  destruct (texts (ext w) !! prompt_path) as [tpl|]; [|simpl; lia].
  rewrite Ht. cbn [fieldnames_of head default tail].
  destruct (headers_ok (Some headers)); [|simpl; lia].
  pose proof (process_rows_within_budget tpl model dry 0 (read_rows headers recs) false w)
    as (Hc & _).
  destruct (process_rows _ _ _ _ _ _ _ _) as [[[rows' updated]|e] w1]; cbn [snd ext] in *;
    [|done].
  destruct updated; [|done]. change (id headers) with headers.
  destruct (persist_run abspath dirname mkstemp_name csv_path headers rows' w1)
    as [[_ Hp]|(_ & e & evs & Hp & _)]; rewrite Hp; cbn [snd ext].
  - match goal with |- context [fs_run ?evs ?s] =>
      destruct (fs_run_frame evs s) as (_ & Hcalls & _) end.
    unfold add_line. cbn [calls]. by rewrite Hcalls.
  - match goal with |- context [fs_run ?evs ?s] =>
      destruct (fs_run_frame evs s) as (_ & Hcalls & _) end.
    by rewrite Hcalls.
Qed.

(** X13.  The error log is only appended to: after a run, however it ends,
    the log is the old log followed by at most one record per loaded row
    that needs work, and each new record carries the id of such a row. *)
Theorem process_csv_error_log_appended csv_path prompt_path model batch_size dry w
    headers recs :
  tables (ext w) !! csv_path = Some (headers :: recs) →
  ∃ new,
    errors_log (ext (process_csv chat_completion abspath dirname mkstemp_name
                       csv_path prompt_path model batch_size dry w).2)
    = errors_log (ext w) ++ new ∧
    length new ≤ count_needs_work (read_rows headers recs) ∧
    Forall (λ line, ∃ r, r ∈ read_rows headers recs ∧ needs_work r
                         ∧ err_id line = row_get r "id") new.
Proof.
  intros Ht.
  assert (∃ new : list error_record,
            errors_log (ext w) = errors_log (ext w) ++ new ∧
            length new ≤ count_needs_work (read_rows headers recs) ∧
            Forall (λ line, ∃ r, r ∈ read_rows headers recs ∧ needs_work r
                                 ∧ err_id line = row_get r "id") new) as Hnone.
  { exists []. rewrite app_nil_r. split; [done|]. split; [simpl; lia|constructor]. }
  unfold process_csv, load_prompt, read_csv. munfold.
  destruct (texts (ext w) !! prompt_path) as [tpl|]; [|done].
  rewrite Ht. cbn [fieldnames_of head default tail].
  destruct (headers_ok (Some headers)); [|done].
  pose proof (process_rows_within_budget tpl model dry 0 (read_rows headers recs) false w)
    as (_ & He).
  destruct (process_rows _ _ _ _ _ _ _ _) as [[[rows' updated]|e] w1]; cbn [snd ext] in *;
    [|done].
  destruct updated; [|done]. change (id headers) with headers.
  destruct (persist_run abspath dirname mkstemp_name csv_path headers rows' w1)
    as [[_ Hp]|(_ & e & evs & Hp & _)]; rewrite Hp; cbn [snd ext].
  - match goal with |- context [fs_run ?evs ?s] =>
      destruct (fs_run_frame evs s) as (_ & _ & _ & Herr & _) end.
    unfold add_line. cbn [errors_log]. by rewrite Herr.
  - match goal with |- context [fs_run ?evs ?s] =>
      destruct (fs_run_frame evs s) as (_ & _ & _ & Herr & _) end.
    by rewrite Herr.
Qed.
End BudgetFacts.

Lemma process_csv_call_bound_witness :
  let headers := sample_header in
  let recs := [["1"; "first"; ""]; ["2"; "second"; "done"]; ["3"; "third"; " "]] in
  let script := [Raise (Exception "RuntimeError" "down"); Ok "S1"] in
  let w := sample_world (headers :: recs) script in
  count_needs_work (read_rows headers recs) = 2 ∧
  length (calls (ext (process_csv scripted id simple_dirname fresh_tmp
                        "/data/sample.csv" "prompts/summarize.txt" "gpt-3.5-turbo" 5 false w).2))
  ≤ length (calls (ext w)) + 4 * count_needs_work (read_rows headers recs).
Proof.
  split; [vm_compute; reflexivity|].
  apply (process_csv_call_bound scripted id simple_dirname fresh_tmp
           "/data/sample.csv" "prompts/summarize.txt" "gpt-3.5-turbo" 5 false
           (sample_world (sample_header
                          :: [["1"; "first"; ""]; ["2"; "second"; "done"]; ["3"; "third"; " "]])
              [Raise (Exception "RuntimeError" "down"); Ok "S1"])).
  vm_compute. reflexivity.
Defined.

Lemma process_csv_error_log_appended_witness :
  let headers := sample_header in
  let recs := [["1"; "first"; ""]; ["2"; "second"; "done"]; ["3"; "third"; " "]] in
  let w := sample_world (headers :: recs) [] in
  ∃ new,
    errors_log (ext (process_csv scripted id simple_dirname fresh_tmp
                       "/data/sample.csv" "prompts/summarize.txt" "gpt-3.5-turbo" 5 false w).2)
    = errors_log (ext w) ++ new ∧
    length new ≤ count_needs_work (read_rows headers recs) ∧
    Forall (λ line, ∃ r, r ∈ read_rows headers recs ∧ needs_work r
                         ∧ err_id line = row_get r "id") new.
Proof.
  apply (process_csv_error_log_appended scripted id simple_dirname fresh_tmp
           "/data/sample.csv" "prompts/summarize.txt" "gpt-3.5-turbo" 5 false
           (sample_world (sample_header
                          :: [["1"; "first"; ""]; ["2"; "second"; "done"]; ["3"; "third"; " "]])
              [])).
  vm_compute. reflexivity.
Defined.

(** ** Reading and writing records *)

Lemma dict_zip_go_notin (ks vs : list string) (d : gmap string (option string)) (k : string) :
  k ∉ ks →
  foldl (λ d kv, <[kv.1 := Some kv.2]> d) d (zip ks vs) !! k = d !! k.
Proof.
  revert vs d. induction ks as [|a ks IH]; intros vs d Hk; [done|].
  destruct vs as [|v vs]; [done|]. cbn [zip_with foldl fst snd].
  rewrite IH by (intros ?; apply Hk; by apply list_elem_of_further).
  apply lookup_insert_ne. intros ->. apply Hk, list_elem_of_here.
Qed.

(** Without duplicate field names the value under a name is the field of
    the record at the position of the name. *)
Lemma dict_zip_go_nodup (ks vs : list string) (d : gmap string (option string))
    (j : nat) (k : string) :
  NoDup ks → ks !! j = Some k →
  foldl (λ d kv, <[kv.1 := Some kv.2]> d) d (zip ks vs) !! k
  = match vs !! j with Some v => Some (Some v) | None => d !! k end.
Proof.
  intros Hnd. revert vs d j. induction Hnd as [|a ks Ha Hnd IH]; intros vs d j Hj; [done|].
  destruct vs as [|v vs]; [done|]. cbn [zip_with foldl fst snd].
  destruct j as [|j]; simpl in Hj.
  - injection Hj as ->. rewrite dict_zip_go_notin by done. simpl. apply lookup_insert_eq.
  - rewrite (IH vs _ j Hj). simpl. destruct (vs !! j); [done|].
    apply lookup_insert_ne. intros ->. apply Ha. by eapply list_elem_of_lookup_2.
Qed.

Lemma fill_none_lookup (ks : list string) (d : gmap string (option string)) (k : string) :
  foldl (λ d k, <[k := None]> d) d ks !! k
  = if decide (k ∈ ks) then Some None else d !! k.
Proof.
  revert d. induction ks as [|a ks IH]; intros d; [done|].
  cbn [foldl]. rewrite IH. destruct (decide (k ∈ ks)) as [Hin|Hnin].
  - by rewrite decide_True by (by apply list_elem_of_further).
  - destruct (decide (k = a)) as [->|Hne].
    + rewrite lookup_insert_eq. by rewrite decide_True by apply list_elem_of_here.
    + rewrite lookup_insert_ne by done.
      by rewrite decide_False by (by intros [?|?]%elem_of_cons).
Qed.

Lemma elem_of_drop_inv (n : nat) (l : list string) (k : string) : k ∈ drop n l → k ∈ l.
Proof.
  intros (i & Hi)%list_elem_of_lookup_1. rewrite lookup_drop in Hi.
  by eapply list_elem_of_lookup_2.
Qed.

(** Every key of a row that was read is a field name. *)
Lemma read_row_dom (fieldnames record : list string) (k : string) :
  is_Some (cells (read_row fieldnames record) !! k) → k ∈ fieldnames.
Proof.
  assert (is_Some (dict_zip fieldnames record !! k) → k ∈ fieldnames) as Hzip.
  { intros Hk. destruct (decide (k ∈ fieldnames)) as [|Hn]; [done|].
    unfold dict_zip in Hk. rewrite dict_zip_go_notin, lookup_empty in Hk by done.
    by destruct Hk. }
  unfold read_row. destruct (_ <? _); [done|]. destruct (_ <? _); [|done].
  cbn [cells]. rewrite fill_none_lookup. destruct (decide _) as [Hin|]; [|done].
  intros _. by eapply elem_of_drop_inv.
Qed.

Lemma read_row_rest (fieldnames record : list string) :
  rest (read_row fieldnames record)
  = if length fieldnames <? length record then Some (drop (length fieldnames) record)
    else None.
Proof. unfold read_row. destruct (_ <? _); [done|]. by destruct (_ <? _). Qed.

(** A row whose keys are field names is rejected by the writer only for
    its surplus fields. *)
Lemma wrong_fields_within (fieldnames : list string) (r : row) :
  (∀ k, is_Some (cells r !! k) → k ∈ fieldnames) →
  wrong_fields fieldnames r = match rest r with Some _ => [None] | None => [] end.
Proof.
  intros Hdom. unfold wrong_fields.
  rewrite (elem_of_nil_inv (filter _ _)); [done|].
  intros k [Hk Hin%elem_of_elements%elem_of_dom]%list_elem_of_filter. auto.
Qed.

Lemma row_step_within (fieldnames : list string) r u r' u' :
  row_step r u r' u' → "summary" ∈ fieldnames →
  (∀ k, is_Some (cells r !! k) → k ∈ fieldnames) →
  (∀ k, is_Some (cells r' !! k) → k ∈ fieldnames) ∧ rest r' = rest r.
Proof.
  intros [| |s] Hs Hdom; [done..|]. split; [|done]. intros k. unfold row_set. cbn [cells].
  destruct (decide (k = "summary")) as [->|Hne]; [done|].
  rewrite lookup_insert_ne by done. apply Hdom.
Qed.

(** The cell written for the field at position [j] of a header without
    duplicates: the field of the record at that position, empty when the
    record is too short. *)
Lemma cell_read_row_nodup (fieldnames record : list string) (j : nat) (k : string) :
  NoDup fieldnames → fieldnames !! j = Some k →
  cell (read_row fieldnames record) k = default "" (record !! j).
Proof.
  intros Hnd Hj.
  assert (dict_zip fieldnames record !! k
          = match record !! j with Some v => Some (Some v) | None => None end) as Hzip.
  { unfold dict_zip. by rewrite (dict_zip_go_nodup _ _ _ j), lookup_empty. }
  unfold read_row, cell.
  destruct (length fieldnames <? length record) eqn:Hlong; cbn [cells].
  { rewrite Hzip. by destruct (record !! j). }
  destruct (length record <? length fieldnames) eqn:Hshort; cbn [cells].
  2:{ rewrite Hzip. by destruct (record !! j). }
  rewrite fill_none_lookup. destruct (decide _) as [Hin|Hnin].
  - apply list_elem_of_lookup_1 in Hin as (i & Hi). rewrite lookup_drop in Hi.
    assert (length record + i = j) as <- by (by eapply NoDup_lookup).
    by rewrite lookup_ge_None_2 by lia.
  - rewrite Hzip. destruct (record !! j) as [v|] eqn:Hv; [done|].
    destruct Hnin. apply list_elem_of_lookup_2 with (j - length record).
    rewrite lookup_drop. apply lookup_ge_None_1 in Hv.
    by replace (length record + (j - length record)) with j by lia.
Qed.

(** X14.  Reading a record with a header that has no duplicate names and
    writing the row back with the same header gives the record again,
    followed by one empty field for each name the record was too short
    for: a record of full length is written back unchanged. *)
Theorem read_write_round_trip (fieldnames record : list string) :
  NoDup fieldnames →
  length record ≤ length fieldnames →
  dict_to_list fieldnames (read_row fieldnames record) = Ok (padded fieldnames record).
Proof.
  intros Hnd Hlen. unfold dict_to_list.
  rewrite wrong_fields_within by apply read_row_dom. rewrite read_row_rest.
  replace (length fieldnames <? length record) with false
    by (symmetry; apply Nat.ltb_ge; lia).
  f_equal. apply list_eq. intros j. rewrite list_lookup_fmap. unfold padded.
  destruct (fieldnames !! j) as [k|] eqn:Hj; simpl.
  - rewrite (cell_read_row_nodup _ _ j) by done.
    pose proof (lookup_lt_Some _ _ _ Hj) as Hlt.
    destruct (decide (j < length record)) as [Hin|Hout].
    + rewrite lookup_app_l by done.
      destruct (lookup_lt_is_Some_2 record j Hin) as [v Hv]. by rewrite Hv.
    + rewrite lookup_app_r by lia. rewrite lookup_replicate_2 by lia.
      by rewrite lookup_ge_None_2 by lia.
  - symmetry. apply lookup_ge_None_2. apply lookup_ge_None_1 in Hj.
    rewrite length_app, length_replicate. lia.
Qed.

Lemma read_write_round_trip_witness :
  dict_to_list ["id"; "lang"; "article"; "summary"]
    (read_row ["id"; "lang"; "article"; "summary"] ["7"; "en"])
  = Ok (padded ["id"; "lang"; "article"; "summary"] ["7"; "en"]).
Proof.
  apply (read_write_round_trip ["id"; "lang"; "article"; "summary"] ["7"; "en"]).
  - apply (bool_decide_unpack _). vm_compute. reflexivity.
  - simpl. lia.
Defined.

Lemma row_step_wrong_fields (headers record : list string) u r' u' :
  "summary" ∈ headers →
  row_step (read_row headers record) u r' u' →
  wrong_fields headers r' = if length headers <? length record then [None] else [].
Proof.
  intros Hs Hstep.
  destruct (row_step_within headers _ _ _ _ Hstep Hs) as [Hdom Hrest].
  { intros k. apply read_row_dom. }
  rewrite wrong_fields_within by done. rewrite Hrest, read_row_rest.
  by destruct (_ <? _).
Qed.

Section RecordFacts.
Context {platform : Platform} {A : Type}.
Variable chat_completion : string → string → A → result string * A.
Variables abspath dirname : string → string.
Variable mkstemp_name : gmap string table → string → string → string → string.
Implicit Types (w : world (pstate A)).

Hypothesis mkstemp_fresh :
  ∀ fs suffix prefix dir, fs !! mkstemp_name fs suffix prefix dir = None.

(** When the writer raises, it is on one of the rows. *)
Lemma writerows_raise_inv (p : string) (headers : list string) (rows : list row) w e w' :
  writerows p headers rows w = (Raise e, w') →
  ∃ r, r ∈ rows ∧ dict_to_list headers r = Raise e.
Proof.
  revert w. induction rows as [|r rows IH]; intros w; [done|].
  cbn [writerows]. unfold writerow. munfold.
  destruct (dict_to_list headers r) as [record|e0] eqn:Hr.
  - unfold fs_do. munfold. cbn [ext slept]. intros (r0 & Hin & H0)%IH.
    exists r0. split; [by apply list_elem_of_further|done].
  - intros [= <- <-]. exists r. split; [apply list_elem_of_here|done].
Qed.

Lemma persist_raise_inv (csv_path : string) (headers : list string) (rows : list row) w e w' :
  persist abspath dirname mkstemp_name csv_path headers rows w = (Raise e, w') →
  ∃ r, r ∈ rows ∧ dict_to_list headers r = Raise e.
Proof.
  unfold persist, mkstemp, writeheader, writerow.
  rewrite dict_to_list_header. munfold. unfold fs_do, print. munfold.
  cbn [ext slept fst snd].
  destruct (writerows _ _ _ _) as [[[]|e0] w2] eqn:Hw; [done|].
  intros [= <- <-]. by eapply writerows_raise_inv.
Qed.

(** X15.  A record with more fields than the header makes every run that
    has changed a row fail when it comes to write: [DictWriter] raises
    [ValueError] for the surplus fields kept under the key [None], the
    run ends with that exception, and the dataset is left exactly as it
    was, so the summaries obtained in the loop are lost while the calls
    made for them stay made. *)
Theorem overlong_record_aborts_write csv_path prompt_path model batch_size dry w tpl
    headers recs rows' w1 :
  texts (ext w) !! prompt_path = Some tpl →
  tables (ext w) !! csv_path = Some (headers :: recs) →
  "article" ∈ headers →
  "summary" ∈ headers →
  Exists (λ record, length headers < length record) recs →
  process_rows chat_completion tpl model dry 0 (read_rows headers recs) false w
    = (Ok (rows', true), w1) →
  let run := process_csv chat_completion abspath dirname mkstemp_name
               csv_path prompt_path model batch_size dry w in
  run.1 = Raise (Exception "ValueError" "dict contains fields not in fieldnames: None") ∧
  tables (ext run.2) !! csv_path = Some (headers :: recs) ∧
  calls (ext run.2) = calls (ext w1).
Proof using mkstemp_fresh.
  intros Htpl Ht Ha Hs Hlong Hloop run. subst run.
  unfold process_csv, load_prompt, read_csv. munfold.
  rewrite Htpl, Ht. cbn [fieldnames_of head headers_ok].
  rewrite !bool_decide_eq_true_2 by done. cbn [andb default tail].
  change (id headers) with headers. rewrite Hloop.
  pose proof (process_rows_same_files chat_completion tpl model dry 0
                (read_rows headers recs) false w) as Hsame.
  rewrite Hloop in Hsame. destruct Hsame as (_ & Htab & _). simpl in Htab.
  apply process_rows_ok in Hloop as (Hsteps & _ & _).
  pose proof (persist_run abspath dirname mkstemp_name csv_path headers rows' w1) as Hrun.
  cbv zeta in Hrun.
  set (dir := tmp_dir_of abspath dirname csv_path) in *.
  set (tmp := mkstemp_name (tables (ext w1)) ".csv" "csvtmp" dir) in *.
  assert (tmp ≠ csv_path) as Hne.
  { intros Heq. pose proof (mkstemp_fresh (tables (ext w1)) ".csv" "csvtmp" dir) as Hfresh.
    fold tmp in Hfresh. rewrite Heq, Htab, Ht in Hfresh. done. }
  destruct Hrun as [[Hfit _]|(_ & e & evs & Hp & Hevs)].
  { exfalso. apply Exists_exists in Hlong as (record & Hin & Hlen).
    assert (read_row headers record ∈ read_rows headers recs) as Hrow.
    { apply list_elem_of_fmap_2, list_elem_of_filter. split; [|done].
      intros ->. simpl in Hlen. lia. }
    apply list_elem_of_lookup_1 in Hrow as (i & Hi).
    destruct (Forall2_lookup_l _ _ _ _ _ Hsteps Hi) as (r' & Hi' & u & u' & Hstep).
    pose proof (Forall_lookup_1 _ _ _ _ Hfit Hi') as Hr'. unfold fits in Hr'.
    rewrite (row_step_wrong_fields _ _ _ _ _ Hs Hstep) in Hr'.
    apply Nat.ltb_lt in Hlen. by rewrite Hlen in Hr'. }
  pose proof Hp as (r' & Hin & Hr')%persist_raise_inv.
  rewrite Hp. cbn [fst snd ext]. split; [|split].
  - apply list_elem_of_lookup_1 in Hin as (i & Hi').
    destruct (Forall2_lookup_r _ _ _ _ _ Hsteps Hi') as (r & Hi & u & u' & Hstep).
    apply list_elem_of_lookup_2, list_elem_of_fmap_1 in Hi as (record & -> & _).
    unfold dict_to_list in Hr'.
    rewrite (row_step_wrong_fields _ _ _ _ _ Hs Hstep) in Hr'.
    destruct (_ <? _); [|done]. by injection Hr' as <-.
  - rewrite fs_run_tables, (replay_writes_to_other tmp); [by rewrite Htab| |done].
    by constructor.
  - by destruct (fs_run_frame (Created dir tmp :: evs) (ext w1)) as (_ & -> & _).
Qed.
End RecordFacts.

Lemma overlong_record_aborts_write_witness :
  let recs := [["1"; "first"; ""; "stray"]; ["2"; "second"; "done"]] in
  let w := sample_world (sample_header :: recs) [Ok "S1"] in
  let run := process_csv scripted id simple_dirname fresh_tmp
               "/data/sample.csv" "prompts/summarize.txt" "gpt-3.5-turbo" 5 false w in
  run.1 = Raise (Exception "ValueError" "dict contains fields not in fieldnames: None") ∧
  tables (ext run.2) !! "/data/sample.csv" = Some (sample_header :: recs) ∧
  calls (ext run.2)
  = calls (ext (process_rows scripted "Summarize: {{ARTICLE}}" "gpt-3.5-turbo" false 0
                  (read_rows sample_header recs) false w).2).
Proof.
  apply (overlong_record_aborts_write scripted id simple_dirname fresh_tmp
           (λ fs suffix prefix dir, fresh_string_fresh fs _)
           "/data/sample.csv" "prompts/summarize.txt" "gpt-3.5-turbo" 5 false
           (sample_world (sample_header
                          :: [["1"; "first"; ""; "stray"]; ["2"; "second"; "done"]])
              [Ok "S1"])
           "Summarize: {{ARTICLE}}" sample_header
           [["1"; "first"; ""; "stray"]; ["2"; "second"; "done"]]
           [row_set (read_row sample_header ["1"; "first"; ""; "stray"]) "summary" "S1";
            read_row sample_header ["2"; "second"; "done"]]).
  - vm_compute. reflexivity.
  - vm_compute. reflexivity.
  - apply (bool_decide_unpack _). vm_compute. reflexivity.
  - apply (bool_decide_unpack _). vm_compute. reflexivity.
  - apply Exists_cons_hd. simpl. lia.
  - vm_compute. reflexivity.
Defined.

Lemma padded_lookup (fieldnames record : list string) (j : nat) :
  j < length fieldnames →
  padded fieldnames record !! j = Some (default "" (record !! j)).
Proof.
  intros Hj. unfold padded. destruct (decide (j < length record)) as [Hin|Hout].
  - rewrite lookup_app_l by done.
    destruct (lookup_lt_is_Some_2 record j Hin) as [v Hv]. by rewrite Hv.
  - rewrite lookup_app_r by lia. rewrite lookup_replicate_2 by lia.
    by rewrite lookup_ge_None_2 by lia.
Qed.

Lemma cell_row_get (r : row) (k s : string) :
  cell r k = s → s ≠ "" → row_get r k = Some s.
Proof.
  unfold cell, row_get. destruct (cells r !! k) as [[v|]|]; by intros <-.
Qed.

Lemma strip_not_empty (s : string) : strip s ≠ "" → s ≠ "".
Proof. by intros H ->. Qed.

Section RewriteFacts.
Context {platform : Platform} {A : Type}.
Variable chat_completion : string → string → A → result string * A.
Variables abspath dirname : string → string.
Variable mkstemp_name : gmap string table → string → string → string → string.
Implicit Types (w : world (pstate A)).

(** X16.  What a rewrite does to the file, record by record.  For a header
    without duplicate names and records none of which is longer than the
    header, a run that completes and writes leaves the header, then one
    record per non-empty record of the old file, in the same order and of
    the length of the header.  In every column other than [summary] the
    new record has the old field (empty where the old record was too
    short), and a summary that was not blank is kept as it was: only
    blank summaries are ever replaced, and empty records are dropped. *)
Theorem rewrite_preserves_records csv_path prompt_path model batch_size dry w w'
    headers recs :
  tables (ext w) !! csv_path = Some (headers :: recs) →
  NoDup headers →
  Forall (λ record, length record ≤ length headers) recs →
  process_csv chat_completion abspath dirname mkstemp_name
    csv_path prompt_path model batch_size dry w = (Ok tt, w') →
  fs_log (ext w') ≠ fs_log (ext w) →
  ∃ written,
    tables (ext w') !! csv_path = Some (headers :: written) ∧
    Forall2 (λ record record',
               length record' = length headers ∧
               ∀ j k, headers !! j = Some k →
                 k ≠ "summary" ∨ (∃ s, record !! j = Some s ∧ strip s ≠ "") →
                 record' !! j = padded headers record !! j)
      (filter (λ record, record ≠ []) recs) written.
Proof.
  intros Ht Hnd Hlen Hrun Hwrote.
  apply process_csv_ok_inv in Hrun
    as (tpl & headers' & recs' & rows' & updated & w1 & _ & Ht' & _ & _ & Hloop & Hrest).
  rewrite Ht in Ht'. injection Ht' as <- <-.
  pose proof (process_rows_same_files chat_completion tpl model dry 0
                (read_rows headers recs) false w) as Hsame.
  rewrite Hloop in Hsame. destruct Hsame as (_ & _ & Hlog). simpl in Hlog.
  apply process_rows_ok in Hloop as (Hsteps & _ & _).
  destruct updated.
  2:{ unfold print in Hrest. munfold. injection Hrest as <-.
      destruct Hwrote. simpl. done. }
  destruct (persist_run abspath dirname mkstemp_name csv_path headers rows' w1)
    as [[_ Hp]|(_ & e & evs & Hp & _)]; rewrite Hp in Hrest; [|done].
  injection Hrest as <-. exists (records_of headers rows').
  cbn [ext]. unfold add_line. cbn [tables]. rewrite fs_run_tables.
  split; [apply replay_persist|].
  unfold read_rows in Hsteps. apply Forall2_fmap_l in Hsteps.
  unfold records_of. apply Forall2_fmap_r.
  apply Forall2_same_length_lookup_2; [by eapply Forall2_length|].
  intros i record r' Hi Hi'. cbn [compose].
  apply Forall2_same_length_lookup in Hsteps as [_ Hsteps].
  destruct (Hsteps i record r' Hi Hi') as (u & u' & Hstep). cbn [compose] in Hstep.
  split; [by rewrite length_fmap|].
  intros j k Hj Hkeep. rewrite list_lookup_fmap, Hj. simpl.
  rewrite padded_lookup by (by eapply lookup_lt_Some). f_equal.
  rewrite <- (cell_read_row_nodup headers record j k) by done.
  destruct (decide (k = "summary")) as [->|Hne]; [|by eapply row_step_cell].
  destruct Hkeep as [?|(s & Hs & Hstrip)]; [done|].
  assert (has_summary (read_row headers record) = true) as Hsum.
  { apply has_summary_spec. exists s. split; [|done].
    apply cell_row_get; [|by apply strip_not_empty].
    by rewrite (cell_read_row_nodup headers record j), Hs. }
  destruct Hstep; congruence.
Qed.
End RewriteFacts.

Lemma rewrite_preserves_records_witness :
  let headers := ["id"; "lang"; "article"; "summary"] in
  let recs := [["1"; "en"; "first"; ""]; []; ["2"; "fr"; "second"; "done"]; ["3"; "de"; "third"]] in
  let w := sample_world (headers :: recs) [Ok "S1"; Ok "S3"] in
  let w' := (process_csv scripted id simple_dirname fresh_tmp
               "/data/sample.csv" "prompts/summarize.txt" "gpt-3.5-turbo" 5 false w).2 in
  ∃ written,
    tables (ext w') !! "/data/sample.csv" = Some (headers :: written) ∧
    Forall2 (λ record record',
               length record' = length headers ∧
               ∀ j k, headers !! j = Some k →
                 k ≠ "summary" ∨ (∃ s, record !! j = Some s ∧ strip s ≠ "") →
                 record' !! j = padded headers record !! j)
      (filter (λ record, record ≠ []) recs) written.
Proof.
  apply (rewrite_preserves_records scripted id simple_dirname fresh_tmp
           "/data/sample.csv" "prompts/summarize.txt" "gpt-3.5-turbo" 5 false
           (sample_world (["id"; "lang"; "article"; "summary"]
                          :: [["1"; "en"; "first"; ""]; [];
                              ["2"; "fr"; "second"; "done"]; ["3"; "de"; "third"]])
              [Ok "S1"; Ok "S3"])).
  - vm_compute. reflexivity.
  - apply (bool_decide_unpack _). vm_compute. reflexivity.
  - repeat constructor; simpl; lia.
  - vm_compute. reflexivity.
  - vm_compute. discriminate.
Defined.

(** ** Dry runs *)

Lemma cell_row_get_default (r : row) (k a : string) :
  row_get_default r k "" = Some a → cell r k = a.
Proof.
  unfold row_get_default, cell. destruct (cells r !! k) as [[v|]|]; by intros [= <-].
Qed.

Section DryRunFacts.
Context {platform : Platform} {A : Type}.
Variable chat_completion : string → string → A → result string * A.
Variables abspath dirname : string → string.
Variable mkstemp_name : gmap string table → string → string → string → string.
Implicit Types (w : world (pstate A)).

Lemma process_row_dry_run_result tpl model i r updated w :
  (needs_work r → has_article r) →
  process_row chat_completion tpl model true i r updated w
  = (Ok (dry_run_result r, updated || negb (has_summary r)),
     World (add_lines (dry_run_lines tpl i r) (ext w)) (slept w)).
Proof.
  intros Hart. unfold dry_run_result, dry_run_lines.
  destruct (has_summary r) eqn:Hs.
  - rewrite process_row_skip by done. rewrite add_lines_nil, orb_false_r. by destruct w.
  - destruct (Hart Hs) as [article Ha].
    pose proof (dry_run_row chat_completion tpl model i r updated w Hs) as Hrow.
    rewrite Ha in Hrow. rewrite Hrow, orb_true_r, (cell_row_get_default r _ _ Ha).
    do 2 f_equal. unfold add_line, add_lines. cbn. f_equal. by rewrite <- !app_assoc.
Qed.

(** X17.  The row loop of a dry run, when every row that needs work has an
    article: it returns normally; the rows that had a summary are
    returned as they were and the others with the fixed placeholder as
    their summary; the flag is raised exactly when some row needed work;
    and the only effect is the output, four lines per row that needed
    work (progress line, the two markers and between them the first 1000
    characters of the rendered prompt), in the order of the rows. *)
Theorem dry_run_loop_result tpl model i rows updated w :
  Forall (λ r, needs_work r → has_article r) rows →
  process_rows chat_completion tpl model true i rows updated w
  = (Ok (dry_run_result <$> rows, updated || any_needs_work rows),
     World (add_lines (dry_run_output tpl i rows) (ext w)) (slept w)).
Proof.
  intros Hall. revert i updated w.
  induction Hall as [|r rows Hr _ IH]; intros i updated w.
  - cbn. rewrite add_lines_nil, orb_false_r. by destruct w.
  - cbn [process_rows]. munfold. rewrite process_row_dry_run_result by done.
    rewrite IH. cbn [ext slept dry_run_output any_needs_work existsb fmap list_fmap].
    by rewrite add_lines_app, orb_assoc.
Qed.

(** X18.  A dry run uses the rows up.  After a dry run that completed, the
    next run on the same files, dry or not and with any model, finds
    nothing to do: it makes no call and no write and only prints that no
    update is needed, because the placeholders the dry run wrote count
    as summaries. *)
Theorem dry_run_leaves_nothing_to_do csv_path prompt_path model batch_size
    model2 batch_size2 dry2 w0 w1 :
  process_csv chat_completion abspath dirname mkstemp_name
    csv_path prompt_path model batch_size true w0 = (Ok tt, w1) →
  process_csv chat_completion abspath dirname mkstemp_name
    csv_path prompt_path model2 batch_size2 dry2 w1
  = (Ok tt, World (add_line "No updates needed." (ext w1)) (slept w1)).
Proof.
  intros Hrun.
  apply process_csv_ok_inv in Hrun
    as (tpl & headers & recs & rows' & updated & w & Htpl & Ht & Ha & Hs & Hloop & Hrest).
  pose proof (process_rows_same_files chat_completion tpl model true 0
                (read_rows headers recs) false w0) as Hsame.
  rewrite Hloop in Hsame. destruct Hsame as (Htexts & Htab & _). simpl in Htexts, Htab.
  pose proof (process_rows_dry_run_same_calls chat_completion tpl model 0
                (read_rows headers recs) false w0) as Hcalls.
  rewrite Hloop in Hcalls. unfold same_calls in Hcalls. simpl in Hcalls.
  assert (Forall (λ r, has_summary r = true) rows') as Hall.
  { eapply (process_rows_summarized _ _ _ _ _ _ _ _ _ _ _ []); [exact Hloop| |constructor].
    by rewrite app_nil_r. }
  assert (headers ≠ []) as Hne by (intros ->; by apply elem_of_nil in Ha).
  destruct updated.
  - destruct (persist_run abspath dirname mkstemp_name csv_path headers rows' w)
      as [[_ Hp]|(_ & e & evs & Hp & _)]; rewrite Hp in Hrest; [|done].
    set (events := persist_events _ _ _ _ _) in Hrest.
    injection Hrest as <-.
    destruct (fs_run_frame events (ext w)) as (_ & _ & _ & _ & Ht').
    apply (process_csv_all_summarized _ _ _ _ _ _ _ _ _ _ tpl headers
             (records_of headers rows')); [| |done|done|].
    + change (texts (fs_run events (ext w)) !! prompt_path = Some tpl).
      by rewrite Ht', Htexts.
    + change (tables (fs_run events (ext w)) !! csv_path
              = Some (headers :: records_of headers rows')).
      rewrite fs_run_tables. apply replay_persist.
    + rewrite read_rows_records_of by done. apply Forall_fmap.
      eapply Forall_impl; [exact Hall|]. intros r Hr. by apply has_summary_read_back.
  - unfold print in Hrest. munfold. injection Hrest as <-.
    apply process_rows_ok in Hloop as (_ & _ & Heq). rewrite Heq in Hall by done.
    eapply process_csv_all_summarized; [| |done|done|done].
    + cbn [ext texts add_line]. by rewrite Htexts.
    + cbn [ext tables add_line]. by rewrite Htab.
Qed.
End DryRunFacts.

Lemma dry_run_loop_result_witness :
  let rows := [read_row sample_header ["1"; "first"; ""];
               read_row sample_header ["2"; "second"; "done"];
               read_row sample_header ["3"; "third"]] in
  let w := sample_world [sample_header; ["1"; "first"; ""]; ["2"; "second"; "done"];
                         ["3"; "third"]] [] in
  process_rows scripted "Summarize: {{ARTICLE}}" "gpt-3.5-turbo" true 0 rows false w
  = (Ok (dry_run_result <$> rows, false || any_needs_work rows),
     World (add_lines (dry_run_output "Summarize: {{ARTICLE}}" 0 rows) (ext w)) (slept w)).
Proof.
  apply (dry_run_loop_result scripted "Summarize: {{ARTICLE}}" "gpt-3.5-turbo" 0
           [read_row sample_header ["1"; "first"; ""];
            read_row sample_header ["2"; "second"; "done"];
            read_row sample_header ["3"; "third"]]
           false
           (sample_world [sample_header; ["1"; "first"; ""]; ["2"; "second"; "done"];
                          ["3"; "third"]] [])).
  repeat constructor; intros _; vm_compute; by eexists.
Defined.

Lemma dry_run_leaves_nothing_to_do_witness :
  let w0 := sample_world [sample_header; ["1"; "first"; ""]; ["2"; "second"; "done"]] [] in
  let w1 := (process_csv scripted id simple_dirname fresh_tmp
               "/data/sample.csv" "prompts/summarize.txt" "gpt-3.5-turbo" 5 true w0).2 in
  process_csv scripted id simple_dirname fresh_tmp
    "/data/sample.csv" "prompts/summarize.txt" "gpt-4" 5 false w1
  = (Ok tt, World (add_line "No updates needed." (ext w1)) (slept w1)).
Proof.
  apply (dry_run_leaves_nothing_to_do scripted id simple_dirname fresh_tmp
           "/data/sample.csv" "prompts/summarize.txt" "gpt-3.5-turbo" 5 "gpt-4" 5 false
           (sample_world [sample_header; ["1"; "first"; ""]; ["2"; "second"; "done"]] [])).
  vm_compute. reflexivity.
Defined.

(** ** Runs that fail *)

Section FailureFacts.
Context {platform : Platform} {A : Type}.
Variable chat_completion : string → string → A → result string * A.
Variables abspath dirname : string → string.
Variable mkstemp_name : gmap string table → string → string → string → string.
Implicit Types (w : world (pstate A)).

Hypothesis mkstemp_fresh :
  ∀ fs suffix prefix dir, fs !! mkstemp_name fs suffix prefix dir = None.

End FailureFacts.

